(* ===== verification/_CoqProject ===== *)
-Q . S2P
Prelude.v
Params.v
Dynamics.v
Tape.v
Jacobians.v
SparseJac.v
Colouring.v
SystemModel.v
CrossCheck.v
