(* ===== verification/Prelude.v ===== *)
(** * SCpp: a verification development of the dynamics-linearization core

    The repository (cilence/SCpp) linearizes the dynamics of a thrust-vectored
    rigid body with depleting mass for a successive-convexification trajectory
    optimizer.  Its core is two header files:

    - [src/include/params.h]: the physical parameter set (global constants),
      the nonlinear flow map [f(x,u)] of the 14-dimensional state
      (mass, position, velocity, unit quaternion, angular rate) and the
      closed-form Jacobians [A(x,u,sigma)] and [B(x,u,sigma)];
    - [src/include/systemModel.hpp]: the generic linearization engine
      [SystemModel<STATE_DIM, INPUT_DIM, K>], which records a user flow map
      ([systemFlowMap], pure virtual) on a CppAD tape once in
      [initializeModel] and evaluates the sparse Jacobians of that tape in
      [computeA] / [computeB].

    How the parts interact: the (external) optimizer calls either the
    closed-form [A]/[B] of params.h or the engine's [computeA]/[computeB],
    which differentiate the tape recorded from the flow map.  Both paths are
    meant to produce the same linearization; the cross-validation of the two
    is the central property of this development.

    ** Layout of the library (one file per component, in dependency order)

    - [Prelude] (this file): the model of IEEE doubles [dbl] (exact reals
      with one non-finite value standing for NaN and the infinities), the
      scalar interface [Arith] that the templated C++ code is generic in
      (double, [CppAD::AD<double>]), vectors and dense matrices as index
      functions, the two's-complement narrowing [int(.)] of a [size_t]
      ([int_of_size_t], 32-bit [int]) and the conversion back
      ([size_t_of_int], 64-bit [size_t]), the notation scope
      [scpp_scope], the hint database [scpp] and the shared lemmas.
    - [Params]: params.h lines 23-52, the physical parameter set as a
      [Record consts] and the repository's values.
    - [Dynamics]: params.h [f] (lines 189-211), written once against
      [Arith] exactly as the source, and its physical properties.
    - [Tape]: the CppAD tape as an expression type, its zero-order sweep
      (NaN aware), its first-order forward sweep, and the correctness of
      forward-mode differentiation against Stdlib's [derivable_pt_lim].
    - [Jacobians]: params.h [A] and [B] (lines 55-187) over [dbl], with the
      uninitialized Eigen storage made explicit.
    - [SparseJac]: the contract of CppAD's [SparseJacobianForward] (one
      forward sweep per requested column) and of [Eigen::Map] as used by
      systemModel.hpp.
    - [Colouring]: how CppAD actually evaluates it: a column colouring
      computed on the first call, cached in the work object and reused,
      one sweep per colour; and when that refines the contract.
    - [SystemModel]: the engine of systemModel.hpp (state record with its
      work objects, [initializeModel], [computef], [computeA], [computeB]),
      client call sequences as a function [run] and a step relation
      [reach], and the state invariant.
    - [CrossCheck]: the closed-form Jacobians against the engine.

    ** What the theorems show

    - Cross-validation (CrossCheck): every coefficient the engine
      differentiates is the true derivative of [f] (via
      [Tape.fwd_correct], forward-mode AD against [derivable_pt_lim]); the
      closed-form [A] and [B] equal [sigma] times those derivatives on all
      196 and 42 coefficients where mass and thrust are nonzero (all
      thrust components nonzero for [B]); the closed-form [B] and the
      tape's mass row are NaN where a thrust component is zero; the
      repository's configuration ([14] states, [3] controls) aborts on
      its first [computeA].
    - Engine (SystemModel): the closed form of [initializeModel] and the
      round trip of its index encoding; the state invariant of every call
      sequence and the well-formedness of the stored indices, proved by
      rule induction; in every reachable state [computeA] fails CppAD's
      assertions unless there was exactly one initialization and the
      state has one component (the A mask misses the requested entry
      [(STATE_DIM - 1, STATE_DIM - 1)]), and [computeB] always fails
      CppAD's row assertion; the A buffer is laid out so that the matrix
      [computeA] builds is the transpose of what CppAD computes.
    - Colouring: the greedy colouring is valid, and for a pattern that is
      a sparsity pattern of the function the coloured evaluation with its
      cached work object refines the per-column contract.
    - Closed forms (Jacobians): coefficients outside the assigned pattern
      are [sigma] times uninitialized storage; the mass row of [B] is NaN
      as soon as one thrust component is zero.
    - Physics (Dynamics): finiteness exactly at nonzero mass, the mass
      flow [-alpha_m |u|], the skew quaternion kinematics, the rotated
      thrust [g + C(q) u / m] and its norm, and Euler's equations.
    - Params: [dt] is [0] ([Params.dt_zero]), because [1 / 50] is an
      integer division.

    Fuel and bounds.  The one loop with a counter, [for (size_t i = 0;
    i < N; i++)] of [initializeModel], is [SystemModel.pattern_loop], run
    on fuel; [initializeModel] gives it fuel [N] from [i = 0], which is
    exactly the [N - 0] iterations the loop needs, so the fuel never runs
    out ([SystemModel.pattern_loop_fold]).  Every other recursion is structural (on the tape expression or
    on a list), and the per-column and per-colour loops of CppAD are
    [map] and [fold_left] over lists, so all definitions are total and
    compute by [vm_compute] or [reflexivity].  The dimensions are those of
    the source's template parameters, kept abstract in [SystemModel]
    ([STATE_DIM], [INPUT_DIM]) and fixed to [14] and [3] in CrossCheck.
    The engine theorems that read the stored row indices assume
    [STATE_DIM + INPUT_DIM < 2^31] (the Section hypothesis [Hwidth]), so
    that every row index [i / STATE_DIM] fits an [int]; the rocket model
    has [17].

    ** What is modelled and how

    Doubles are exact real numbers: rounding is not modelled.  A division
    by zero, the square root of a negative number and anything computed
    from a non-finite value give the non-finite value [None]; this is how
    the NaN paths of the source become visible to the theorems.

    What is not modelled: rounding error; CppAD's optimizer pass
    ([f.optimize()], semantics preserving); CppAD's own colouring
    algorithm, which is not in the repository (a greedy first-fit
    colouring stands for it, and the engine theorems only use its
    validity); the random recording point of [x.setRandom()] (the flow
    map has no data-dependent branch, so the tape does not depend on it);
    [modelName_] (declared, never written); [initializeTrajectory] and
    [addApplicationConstraints] (only declared in the source); the SOCP
    builder, I/O and the driver, which are not under src/. *)

From stdpp Require Import base list.
From Stdlib Require Import Reals Lra ZArith.

(** ** Decidable comparisons on [R] *)

#[export] Instance R_eq_dec : EqDecision R := Req_dec_T.
#[export] Instance R_lt_dec : RelDecision Rlt := Rlt_dec.
#[export] Instance R_le_dec : RelDecision Rle := Rle_dec.

Create HintDb scpp.
Create Rewrite HintDb scpp_rw.

(** ** Doubles: exact reals and a non-finite value *)

Definition dbl := option R.

Definition dadd (x y : dbl) : dbl :=
  match x, y with Some a, Some b => Some (a + b)%R | _, _ => None end.
Definition dsub (x y : dbl) : dbl :=
  match x, y with Some a, Some b => Some (a - b)%R | _, _ => None end.
Definition dmul (x y : dbl) : dbl :=
  match x, y with Some a, Some b => Some (a * b)%R | _, _ => None end.
Definition dopp (x : dbl) : dbl :=
  match x with Some a => Some (- a)%R | None => None end.
(** [a / 0] is an infinity or NaN in IEEE arithmetic: non-finite. *)
Definition ddiv (x y : dbl) : dbl :=
  match x, y with
  | Some a, Some b => if decide (b = 0%R) then None else Some (a / b)%R
  | _, _ => None
  end.
(** [sqrt] of a negative number is NaN. *)
Definition dsqrt (x : dbl) : dbl :=
  match x with
  | Some a => if decide (a < 0)%R then None else Some (sqrt a)
  | None => None
  end.
Definition dabs (x : dbl) : dbl :=
  match x with Some a => Some (Rabs a) | None => None end.

(** ** The scalar interface of the templated code

    The C++ flow map is written once and evaluated both on [double] and on
    [CppAD::AD<double>] (which records a tape); [Arith] is that template
    parameter.  [a_cst] injects a literal or a [double] constant. *)

Class Arith (T : Type) := {
  a_cst : R -> T;
  a_add : T -> T -> T;
  a_sub : T -> T -> T;
  a_mul : T -> T -> T;
  a_div : T -> T -> T;
  a_opp : T -> T;
  a_sqrt : T -> T
}.

#[export] Instance dbl_arith : Arith dbl := {|
  a_cst := Some; a_add := dadd; a_sub := dsub; a_mul := dmul;
  a_div := ddiv; a_opp := dopp; a_sqrt := dsqrt |}.

Declare Scope scpp_scope.
Delimit Scope scpp_scope with A.
Notation "x + y" := (a_add x y) : scpp_scope.
Notation "x - y" := (a_sub x y) : scpp_scope.
Notation "x * y" := (a_mul x y) : scpp_scope.
Notation "x / y" := (a_div x y) : scpp_scope.
Notation "- x" := (a_opp x) : scpp_scope.
Arguments a_cst {T _} r%_R.
Notation "'cst' r" := (a_cst r) (at level 10, r at level 9) : scpp_scope.

(** ** Vectors and dense matrices

    A fixed-size Eigen vector is read by index only: it is a function from
    indices to scalars.  A fixed-size Eigen matrix is a function of
    (row, column); [mset] is the assignment [M(i,j) = v]. *)

Definition vec (T : Type) := nat -> T.
Definition mat (T : Type) := nat -> nat -> T.

(** [v.[k]] is Eigen's [v[k]]; the index is always read as a [nat]. *)
Notation "v .[ k ]" := (v k%nat) (at level 1, left associativity, only parsing).

Definition vec_of_list {T} (d : T) (l : list T) : vec T := fun k => nth k l d.

Definition mset {T} (M : mat T) (i j : nat) (v : T) : mat T :=
  fun a b => if (a =? i) && (b =? j) then v else M a b.

(** [sigma * A] on an Eigen matrix scales every coefficient. *)
Definition mscale (s : dbl) (M : mat dbl) : mat dbl := fun a b => dmul s (M a b).

(** The [k]-th unit vector of the input space: the seed direction of one
    forward sweep. *)
Definition unitv (k : nat) : vec R := fun i => if i =? k then 1%R else 0%R.

(** Two matrices agree on the [rows] x [cols] block. *)
Definition mat_eq_on {T} (rows cols : nat) (M N : mat T) : Prop :=
  forall i j, i < rows -> j < cols -> M i j = N i j.

(** ** Shared lemmas *)

Lemma ddiv_fin (a b : R) : b <> 0%R -> ddiv (Some a) (Some b) = Some (a / b)%R.
Proof. intros Hb. unfold ddiv. by rewrite decide_False. Qed.

Lemma ddiv_zero (x : dbl) : ddiv x (Some 0%R) = None.
Proof. destruct x; simpl; [by rewrite decide_True|done]. Qed.

Lemma dsqrt_fin (a : R) : (0 <= a)%R -> dsqrt (Some a) = Some (sqrt a).
Proof. intros Ha. unfold dsqrt. rewrite decide_False; [done|lra]. Qed.

Lemma dmul_None_r (x : dbl) : dmul x None = None.
Proof. by destruct x. Qed.

Lemma mset_same {T} (M : mat T) i j v : mset M i j v i j = v.
Proof. unfold mset. by rewrite !Nat.eqb_refl. Qed.

Lemma mset_other {T} (M : mat T) i j v a b :
  (a, b) <> (i, j) -> mset M i j v a b = M a b.
Proof.
  intros Hne. unfold mset.
  destruct (Nat.eqb_spec a i), (Nat.eqb_spec b j); subst; simpl; congruence.
Qed.

#[export] Hint Rewrite ddiv_zero dmul_None_r @mset_same : scpp_rw.
#[export] Hint Resolve Rgt_not_eq Rlt_not_eq : scpp.

(** Rewrites every finite division whose divisor is provably nonzero by the
    hypotheses, then closes or simplifies the goal. *)
Ltac dbl_div :=
  repeat match goal with
  | |- context [ddiv (Some ?a) (Some ?b)] =>
      rewrite (ddiv_fin a b) by (auto with scpp real || lra || nra)
  end.

(** Exact real arithmetic, total ([x / 0 = 0] in Stdlib): the
    mathematical reading of the same code, used to state the physics. *)
#[export] Instance R_arith : Arith R := {|
  a_cst := fun r => r; a_add := Rplus; a_sub := Rminus; a_mul := Rmult;
  a_div := Rdiv; a_opp := Ropp; a_sqrt := sqrt |}.

(** A vector of finite doubles. *)
Definition fin (x : vec R) : vec dbl := fun k => Some (x k).

(** ** Generic list lemmas *)

(** ** Machine integers

    [int(n)] of a [size_t] value (C++20 conversion: the value modulo
    [2^32], read in two's complement), and the conversion of an [int] back
    to [size_t] when it is stored in a [vector<size_t>] (modulo [2^64]). *)
Definition int_of_size_t (n : nat) : Z :=
  let z := (Z.of_nat n mod 2 ^ 32)%Z in if (z <? 2 ^ 31)%Z then z else (z - 2 ^ 32)%Z.

Definition size_t_of_int (z : Z) : nat := Z.to_nat (z mod 2 ^ 64).

Lemma lookup_nth_lt {A} (l : list A) (i : nat) (d : A) :
  i < length l -> l !! i = Some (nth i l d).
Proof. intros Hi. destruct (nth_lookup_or_length l i d); [done|lia]. Qed.

Lemma nth_map_lookup {A B} (g : A -> B) (l : list A) (k : nat) (a : A) (d : B) :
  l !! k = Some a -> nth k (map g l) d = g a.
Proof.
  intros Hk. apply nth_lookup_Some. change (map g l) with (g <$> l).
  by rewrite list_lookup_fmap, Hk.
Qed.

Lemma nth_map_seq {A} (g : nat -> A) (a n k : nat) (d : A) :
  k < n -> nth k (map g (seq a n)) d = g (a + k).
Proof.
  intros Hk. rewrite (nth_indep _ d (g 0)) by (rewrite length_map, length_seq; lia).
  rewrite map_nth, seq_nth by lia. done.
Qed.

Lemma zip_map_seq {A B} (f : nat -> A) (g : nat -> B) (a n : nat) :
  zip (map f (seq a n)) (map g (seq a n)) = map (fun i => (f i, g i)) (seq a n).
Proof. revert a. induction n as [|n IH]; intros a; cbn; [done|]. by rewrite IH. Qed.

Lemma filter_seq_lt (b a n : nat) :
  a + n <= b -> filter (fun i => i < b) (seq a n) = seq a n.
Proof.
  revert a. induction n as [|n IH]; intros a Hab; [done|].
  rewrite <- cons_seq, filter_cons, decide_True by lia. f_equal. apply IH. lia.
Qed.

Lemma filter_seq_ge (b a n : nat) :
  b <= a -> filter (fun i => i < b) (seq a n) = [].
Proof.
  revert a. induction n as [|n IH]; intros a Hab; [done|].
  rewrite <- cons_seq, filter_cons, decide_False by lia. apply IH. lia.
Qed.

Lemma filter_seq_not_lt (b a n : nat) :
  b <= a -> filter (fun i => ~ i < b) (seq a n) = seq a n.
Proof.
  revert a. induction n as [|n IH]; intros a Hab; [done|].
  rewrite <- cons_seq, filter_cons, decide_True by lia. f_equal. apply IH. lia.
Qed.

Lemma filter_seq_not_ge (b a n : nat) :
  a + n <= b -> filter (fun i => ~ i < b) (seq a n) = [].
Proof.
  revert a. induction n as [|n IH]; intros a Hab; [done|].
  rewrite <- cons_seq, filter_cons, decide_False by lia. apply IH. lia.
Qed.

(** Writing at the position right after [l1]. *)
Lemma list_insert_middle {A} (l1 l2 : list A) (i : nat) (y v : A) :
  length l1 = i -> <[i := v]> (l1 ++ y :: l2) = l1 ++ v :: l2.
Proof.
  intros <-. induction l1 as [|a l1 IH]; [done|]. cbn. f_equal. exact IH.
Qed.

Lemma Rabs_mul_self (a : R) : (Rabs a * Rabs a = a * a)%R.
Proof. rewrite <- Rabs_mult. apply Rabs_pos_eq. nra. Qed.

#[export] Hint Resolve Rabs_no_R0 : scpp.

(** Flat index [i + n * j] of a column-major [n]-row buffer. *)
Lemma flat_div (n i j : nat) : i < n -> (i + n * j) / n = j.
Proof. intros Hi. symmetry. apply (Nat.div_unique _ _ _ i); lia. Qed.

Lemma flat_mod (n i j : nat) : i < n -> (i + n * j) mod n = i.
Proof. intros Hi. symmetry. apply (Nat.mod_unique _ _ j); lia. Qed.

(** A [size_t] value below [2^31] survives [int(.)] and the conversion back. *)
Lemma size_t_int_small (n : nat) :
  (Z.of_nat n < 2 ^ 31)%Z -> size_t_of_int (int_of_size_t n) = n.
Proof.
  intros Hn. unfold int_of_size_t, size_t_of_int.
  rewrite (Z.mod_small (Z.of_nat n)) by lia.
  rewrite (proj2 (Z.ltb_lt _ _)) by lia.
  rewrite Z.mod_small by lia. apply Nat2Z.id.
Qed.
