(* ===== verification/Params.v ===== *)
(** * Params: the physical parameter set of params.h (lines 23-52)

    The constants that the flow map and the closed-form Jacobians read as
    globals ([g_I], [J_B], [r_T_B], [alpha_m]) are gathered in the record
    [consts], so that the dynamics can be stated for any parameter set and
    instantiated at the repository's values [params_h].  The scalar
    settings of the optimizer and the boundary states are plain
    definitions.  Decimal constants are written as exact ratios (the model
    of doubles is exact). *)

From stdpp Require Import base list.
From Stdlib Require Import Reals Lra.
From S2P Require Import Prelude.

(** ** The constants read by the dynamics *)

Record consts := mk_consts {
  g_I : vec R;      (** gravity vector, inertial frame *)
  J_B : vec R;      (** diagonal of the body inertia tensor *)
  r_T_B : vec R;    (** thrust application point, body frame *)
  alpha_m : R       (** mass-flow coefficient *)
}.

Definition v3 (a b c : R) : vec R := vec_of_list 0%R [a; b; c].
Definition v4 (a b c d : R) : vec R := vec_of_list 0%R [a; b; c; d].

(** The values of params.h: [g_I(-1,0,0)], [J_B(1e-2,1e-2,1e-2)],
    [r_T_B(-1e-2,0,0)], [alpha_m = 0.02]. *)
Definition params_h : consts := {|
  g_I := v3 (-1) 0 0;
  J_B := v3 (1/100) (1/100) (1/100);
  r_T_B := v3 (-1/100) 0 0;
  alpha_m := 2/100
|}.

(** The dynamics divide by every diagonal entry of the inertia. *)
Definition consts_ok (P : consts) : Prop :=
  J_B P 0 <> 0%R /\ J_B P 1 <> 0%R /\ J_B P 2 <> 0%R.

(** ** Optimizer settings *)

Definition K : nat := 50.
Definition iterations : Z := 15.
Definition sigma_guess : R := 2.

(** [double dt = 1 / 50;]: the right-hand side is an [int] division,
    evaluated before the conversion to [double]. *)
Definition dt : R := IZR (Z.quot 1 50).

(** ** Boundary states *)

Definition m_wet : R := 2.
Definition r_I_init : vec R := v3 4 4 0.
Definition v_I_init : vec R := v3 0 (-2) (-2).
Definition q_B_I_init : vec R := v4 1 0 0 0.
Definition w_B_init : vec R := v3 0 0 0.

Definition m_dry : R := 1.
Definition r_I_final : vec R := v3 0 0 0.
Definition v_I_final : vec R := v3 (-1/10) 0 0.
Definition q_B_I_final : vec R := v4 1 0 0 0.
Definition w_B_final : vec R := v3 0 0 0.

(** The 14-dimensional state [(m, r, v, q, w)] assembled from its parts, in
    the layout the flow map reads. *)
Definition state_of (m : R) (r v : vec R) (q : vec R) (w : vec R) : vec R :=
  fun k =>
    if k =? 0 then m
    else if k <? 4 then r (k - 1)
    else if k <? 7 then v (k - 4)
    else if k <? 11 then q (k - 7)
    else w (k - 11).

Definition x_init : vec R := state_of m_wet r_I_init v_I_init q_B_I_init w_B_init.
Definition x_final : vec R := state_of m_dry r_I_final v_I_final q_B_I_final w_B_final.

(** ** Lemmas *)

Lemma params_h_ok : consts_ok params_h.
Proof. unfold consts_ok; cbn; repeat split; lra. Qed.

#[export] Hint Resolve params_h_ok : scpp.

(** Unfolds the repository's constants down to real literals. *)
Ltac unfold_params :=
  unfold x_init, x_final, state_of, m_wet, m_dry, r_I_init, v_I_init, q_B_I_init,
    w_B_init, r_I_final, v_I_final, q_B_I_final, w_B_final, params_h, v3, v4,
    vec_of_list in *; cbn in *.

(** The time step of params.h is zero: [1 / 50] is evaluated in [int]
    arithmetic before the conversion to [double]. *)
Lemma dt_zero : dt = 0%R.
Proof. reflexivity. Qed.
