(* ===== verification/Dynamics.v ===== *)
(** * Dynamics: the flow map [f] of params.h (lines 189-211)

    [f] is written once, generic in the scalar type through [Arith], line
    by line as the C++ source ([std::pow(a,2)] is [pow2 a], Eigen's
    [u.norm()] is [norm3 u]).  At [T := dbl] it is the double function of
    params.h; at [T := expr] (file [Tape]) evaluating it records the CppAD
    tape; at [T := R] it is the exact mathematical flow map on which the
    physics is stated.

    Theorems: the double computation is finite and equal to the exact one
    exactly when the mass and the inertia are nonzero
    ([f_fin], [f_nonfinite_massless]); the mass flow is [-alpha |u|]; the
    translational dynamics is gravity plus the thrust rotated by the
    quaternion's direction-cosine matrix, whose norm is preserved for a unit
    quaternion; the quaternion kinematics is skew (the norm of [q] is a
    first integral) and vanishes at zero rate; the angular dynamics is
    Euler's equation with the thrust torque [r_T x u]. *)

From stdpp Require Import base list.
From Stdlib Require Import Reals Lra.
From S2P Require Import Prelude Params.

Section Flow.
Context {T : Type} `{Arith T} (P : consts).
Local Open Scope scpp_scope.

(** [std::pow(a, 2)] *)
Definition pow2 (a : T) : T := a * a.

(** Eigen's [u.norm()] for a 3-vector: [sqrt] of the squared norm. *)
Definition norm3 (u : vec T) : T := a_sqrt (u.[0] * u.[0] + u.[1] * u.[1] + u.[2] * u.[2]).

Definition f (x u : vec T) : list T :=
  [ cst (- alpha_m P) * norm3 u;
    x.[4];
    x.[5];
    x.[6];
    cst (g_I P 0) - (u.[0] * (cst 2 * pow2 (x.[9]) + cst 2 * pow2 (x.[10]) - cst 1)) / x.[0]
      + (u.[1] * (cst 2 * x.[7] * x.[10] + cst 2 * x.[8] * x.[9])) / x.[0]
      - (u.[2] * (cst 2 * x.[7] * x.[9] - cst 2 * x.[8] * x.[10])) / x.[0];
    cst (g_I P 1) - (u.[1] * (cst 2 * pow2 (x.[8]) + cst 2 * pow2 (x.[10]) - cst 1)) / x.[0]
      - (u.[0] * (cst 2 * x.[7] * x.[10] - cst 2 * x.[8] * x.[9])) / x.[0]
      + (u.[2] * (cst 2 * x.[7] * x.[8] + cst 2 * x.[9] * x.[10])) / x.[0];
    cst (g_I P 2) - (u.[2] * (cst 2 * pow2 (x.[8]) + cst 2 * pow2 (x.[9]) - cst 1)) / x.[0]
      + (u.[0] * (cst 2 * x.[7] * x.[9] + cst 2 * x.[8] * x.[10])) / x.[0]
      - (u.[1] * (cst 2 * x.[7] * x.[8] - cst 2 * x.[9] * x.[10])) / x.[0];
    - (x.[8] * x.[11]) / cst 2 - (x.[9] * x.[12]) / cst 2 - (x.[10] * x.[13]) / cst 2;
    (x.[7] * x.[11]) / cst 2 + (x.[9] * x.[13]) / cst 2 - (x.[10] * x.[12]) / cst 2;
    (x.[7] * x.[12]) / cst 2 - (x.[8] * x.[13]) / cst 2 + (x.[10] * x.[11]) / cst 2;
    (x.[7] * x.[13]) / cst 2 + (x.[8] * x.[12]) / cst 2 - (x.[9] * x.[11]) / cst 2;
    (cst (r_T_B P 1) * u.[2] - cst (r_T_B P 2) * u.[1]
      + cst (J_B P 1) * x.[12] * x.[13] - cst (J_B P 2) * x.[12] * x.[13]) / cst (J_B P 0);
    - (cst (r_T_B P 0) * u.[2] - cst (r_T_B P 2) * u.[0]
      + cst (J_B P 0) * x.[11] * x.[13] - cst (J_B P 2) * x.[11] * x.[13]) / cst (J_B P 1);
    (cst (r_T_B P 0) * u.[1] - cst (r_T_B P 1) * u.[0]
      + cst (J_B P 0) * x.[11] * x.[12] - cst (J_B P 1) * x.[11] * x.[12]) / cst (J_B P 2) ].

End Flow.

(** The exact flow map, one component at a time. *)
Definition fR (P : consts) (x u : vec R) (k : nat) : R := nth k (f P x u) 0%R.

(** ** Physical reading *)

(** The direction-cosine matrix of the quaternion [q = (q0, q1, q2, q3)],
    in the form the source uses (valid for a unit quaternion). *)
Definition dcm (q : vec R) (i j : nat) : R :=
  let '(q0, q1, q2, q3) := (q 0, q 1, q 2, q 3) in
  (match i, j with
  | 0, 0 => 1 - 2 * (q2 * q2 + q3 * q3)
  | 0, 1 => 2 * (q1 * q2 + q0 * q3)
  | 0, 2 => 2 * (q1 * q3 - q0 * q2)
  | 1, 0 => 2 * (q1 * q2 - q0 * q3)
  | 1, 1 => 1 - 2 * (q1 * q1 + q3 * q3)
  | 1, 2 => 2 * (q2 * q3 + q0 * q1)
  | 2, 0 => 2 * (q1 * q3 + q0 * q2)
  | 2, 1 => 2 * (q2 * q3 - q0 * q1)
  | 2, 2 => 1 - 2 * (q1 * q1 + q2 * q2)
  | _, _ => 0
  end)%R.

Definition quat (x : vec R) (k : nat) : R := x (7 + k).
Definition omega (x : vec R) (k : nat) : R := x (11 + k).
Definition qnorm2 (q : vec R) : R :=
  let '(q0, q1, q2, q3) := (q 0, q 1, q 2, q 3) in (q0 * q0 + q1 * q1 + q2 * q2 + q3 * q3)%R.
Definition norm2_3 (v : vec R) : R :=
  let '(v0, v1, v2) := (v 0, v 1, v 2) in (v0 * v0 + v1 * v1 + v2 * v2)%R.

(** [(r x u)_i] *)
Definition cross3 (r u : vec R) (i : nat) : R :=
  let '(r0, r1, r2, u0, u1, u2) := (r 0, r 1, r 2, u 0, u 1, u 2) in
  (match i with
  | 0 => r1 * u2 - r2 * u1
  | 1 => r2 * u0 - r0 * u2
  | _ => r0 * u1 - r1 * u0
  end)%R.

Definition zero3 : vec R := fun _ => 0%R.

(** ** The double computation against the exact one *)

Ltac flow_fin :=
  cbn -[ddiv dsqrt]; dbl_div;
  repeat (rewrite dsqrt_fin by nra); cbn.

(** The double flow map is finite, and equal to the exact flow map, at
    every state of nonzero mass when the inertia is nonzero. *)
Lemma f_fin (P : consts) (x u : vec R) :
  consts_ok P -> x 0 <> 0%R -> f P (fin x) (fin u) = map Some (f P x u).
Proof.
  intros (HJ0 & HJ1 & HJ2) Hm. unfold f, norm3, pow2, fin. flow_fin. reflexivity.
Qed.

(** At zero mass the translational rows divide by zero: the double flow map
    returns non-finite values there, whatever the control (nothing in [f]
    guards the division). *)
Lemma f_nonfinite_massless (P : consts) (x u : vec R) :
  x 0 = 0%R ->
  nth 4 (f P (fin x) (fin u)) None = None /\
  nth 5 (f P (fin x) (fin u)) None = None /\
  nth 6 (f P (fin x) (fin u)) None = None.
Proof.
  intros Hm. unfold f, fin, pow2. cbn -[ddiv]. rewrite Hm, !ddiv_zero.
  repeat split; cbn; destruct (ddiv _ _); reflexivity.
Qed.

(** C14: For a parameter set with nonzero inertia, the double flow map is finite
    in every component exactly when the mass is nonzero: nothing in [f]
    rejects a zero mass, it returns non-finite accelerations. *)
Theorem f_finite_iff (P : consts) (x u : vec R) :
  consts_ok P ->
  ((forall k, k < 14 -> nth k (f P (fin x) (fin u)) None <> None) <-> x.[0] <> 0%R).
Proof.
  intros HP. split.
  - intros Hfin Hm. destruct (f_nonfinite_massless P x u Hm) as (H4 & _).
    exact (Hfin 4 ltac:(lia) H4).
  - intros Hm k Hk. rewrite f_fin by done.
    rewrite (nth_indep _ _ (Some 0%R)) by (rewrite length_map; cbn; lia).
    rewrite map_nth. discriminate.
Qed.

(** ** Mass flow *)

(** C15: The mass row of the double flow map is finite for every finite
    control and equals [-alpha_m * |u|]. *)
Lemma f_mass_flow (P : consts) (x u : vec R) :
  nth 0 (f P (fin x) (fin u)) None = Some (- alpha_m P * sqrt (norm2_3 u))%R.
Proof.
  unfold f, norm3, fin, norm2_3. cbn -[dsqrt]. rewrite dsqrt_fin by nra. reflexivity.
Qed.

(** ** Quaternion kinematics *)

(** C16: [q . qdot = 0]: the kinematics is skew, so [|q|] is a first integral of
    the continuous dynamics. *)
Lemma f_quat_skew (P : consts) (x u : vec R) :
  (quat x 0 * fR P x u 7 + quat x 1 * fR P x u 8
   + quat x 2 * fR P x u 9 + quat x 3 * fR P x u 10)%R = 0%R.
Proof. unfold fR, f, quat; cbn. field. Qed.

(** At zero angular rate the double flow map gives [qdot = 0] exactly, for
    every quaternion. *)
Lemma f_quat_zero_rate (P : consts) (x u : vec R) :
  x.[11] = 0%R -> x.[12] = 0%R -> x.[13] = 0%R ->
  forall k, k < 4 -> nth (7 + k) (f P (fin x) (fin u)) None = Some 0%R.
Proof.
  intros H11 H12 H13 k Hk. unfold f, fin; cbn -[ddiv].
  rewrite H11, H12, H13. dbl_div.
  destruct k as [|[|[|[|k]]]]; cbn; try lia; f_equal; field.
Qed.

(** ** Translational dynamics *)

(** The translational rows in terms of the direction-cosine matrix. *)
Lemma f_vel_row (P : consts) (x u : vec R) (i : nat) :
  x.[0] <> 0%R -> i < 3 ->
  fR P x u (4 + i) =
    (g_I P i + (dcm (quat x) i 0 * u.[0] + dcm (quat x) i 1 * u.[1]
                + dcm (quat x) i 2 * u.[2]) / x.[0])%R.
Proof.
  intros Hm Hi. unfold fR, f, dcm, quat, pow2.
  destruct i as [|[|[|i]]]; cbn; try lia; field; exact Hm.
Qed.

(** C5: [vdot = g + C(q) u / m]: the thrust, given in the body frame, is rotated
    by the direction-cosine matrix of the attitude quaternion and divided by
    the current mass. *)
Theorem f_vel_dcm (P : consts) (x u : vec R) (i : nat) :
  x.[0] <> 0%R -> i < 3 ->
  fR P x u (4 + i) =
    (g_I P i + (dcm (quat x) i 0 * u.[0] + dcm (quat x) i 1 * u.[1]
                + dcm (quat x) i 2 * u.[2]) / x.[0])%R.
Proof. exact (f_vel_row P x u i). Qed.

(** For a unit quaternion the matrix is a rotation: its columns are
    orthonormal. *)
Lemma dcm_orthonormal (q : vec R) (i j : nat) :
  qnorm2 q = 1%R -> i < 3 -> j < 3 ->
  (dcm q 0 i * dcm q 0 j + dcm q 1 i * dcm q 1 j + dcm q 2 i * dcm q 2 j)%R =
    (if i =? j then 1 else 0)%R.
Proof.
  unfold qnorm2, dcm. intros Hq Hi Hj.
  destruct i as [|[|[|i]]], j as [|[|[|j]]]; cbn; try lia;
    (* replace each constant 1 by |q|^2, after which the identity is a ring identity *)
    rewrite <- ?Hq; nra.
Qed.

(** The rotation preserves the length of the thrust vector. *)
Lemma dcm_preserves_norm (q u : vec R) :
  qnorm2 q = 1%R ->
  norm2_3 (fun i => dcm q i 0 * u.[0] + dcm q i 1 * u.[1] + dcm q i 2 * u.[2])%R
  = norm2_3 u.
Proof.
  intros Hq.
  pose proof (dcm_orthonormal q 0 0 Hq ltac:(lia) ltac:(lia)) as H00.
  pose proof (dcm_orthonormal q 1 1 Hq ltac:(lia) ltac:(lia)) as H11.
  pose proof (dcm_orthonormal q 2 2 Hq ltac:(lia) ltac:(lia)) as H22.
  pose proof (dcm_orthonormal q 0 1 Hq ltac:(lia) ltac:(lia)) as H01.
  pose proof (dcm_orthonormal q 0 2 Hq ltac:(lia) ltac:(lia)) as H02.
  pose proof (dcm_orthonormal q 1 2 Hq ltac:(lia) ltac:(lia)) as H12.
  cbn -[dcm] in *. unfold norm2_3.
  transitivity (u.[0] * u.[0] * (dcm q 0 0 * dcm q 0 0 + dcm q 1 0 * dcm q 1 0 + dcm q 2 0 * dcm q 2 0)
    + u.[1] * u.[1] * (dcm q 0 1 * dcm q 0 1 + dcm q 1 1 * dcm q 1 1 + dcm q 2 1 * dcm q 2 1)
    + u.[2] * u.[2] * (dcm q 0 2 * dcm q 0 2 + dcm q 1 2 * dcm q 1 2 + dcm q 2 2 * dcm q 2 2)
    + 2 * u.[0] * u.[1] * (dcm q 0 0 * dcm q 0 1 + dcm q 1 0 * dcm q 1 1 + dcm q 2 0 * dcm q 2 1)
    + 2 * u.[0] * u.[2] * (dcm q 0 0 * dcm q 0 2 + dcm q 1 0 * dcm q 1 2 + dcm q 2 0 * dcm q 2 2)
    + 2 * u.[1] * u.[2] * (dcm q 0 1 * dcm q 0 2 + dcm q 1 1 * dcm q 1 2 + dcm q 2 1 * dcm q 2 2))%R.
  - ring.
  - rewrite H00, H11, H22, H01, H02, H12. ring.
Qed.

(** C18: For a unit attitude quaternion the thrust acceleration has magnitude
    [|u| / m]: [|vdot - g|^2 = |u|^2 / m^2]. *)
Lemma f_thrust_norm (P : consts) (x u : vec R) :
  qnorm2 (quat x) = 1%R -> x.[0] <> 0%R ->
  norm2_3 (fun i => fR P x u (4 + i) - g_I P i)%R = (norm2_3 u / (x.[0] * x.[0]))%R.
Proof.
  intros Hq Hm.
  rewrite <- (dcm_preserves_norm (quat x) u Hq). unfold norm2_3.
  rewrite !f_vel_row by (auto; lia). cbn -[dcm quat]. field. exact Hm.
Qed.

(** ** Rotational dynamics *)

(** C17: Euler's equation for a diagonal inertia with the torque of the thrust
    applied at [r_T_B]: [J_i wdot_i = (r_T x u)_i + (J_j - J_k) w_j w_k]
    for the cyclic permutations [(i, j, k)] of the body axes. *)
Lemma f_euler (P : consts) (x u : vec R) (i : nat) :
  consts_ok P -> i < 3 ->
  (J_B P i * fR P x u (11 + i) =
    cross3 (r_T_B P) u i
    + (J_B P ((i + 1) mod 3) - J_B P ((i + 2) mod 3))
      * omega x ((i + 1) mod 3) * omega x ((i + 2) mod 3))%R.
Proof.
  intros (HJ0 & HJ1 & HJ2) Hi. unfold fR, f, cross3, omega.
  destruct i as [|[|[|i]]]; cbn; try lia; field; assumption.
Qed.

(** ** Witnesses *)

Lemma f_finite_iff_witness :
  consts_ok params_h /\
  ((forall k, k < 14 -> nth k (f params_h (fin x_init) (fin zero3)) None <> None) <->
   x_init.[0] <> 0%R).
Proof. split; [exact params_h_ok|]. exact (f_finite_iff params_h x_init zero3 params_h_ok). Defined.

Lemma f_vel_dcm_witness :
  x_init.[0] <> 0%R /\
  fR params_h x_init (v3 1 0 0) 4 =
    ((g_I params_h).[0] + (dcm (quat x_init) 0 0 * (v3 1 0 0).[0] + dcm (quat x_init) 0 1 * (v3 1 0 0).[1]
                       + dcm (quat x_init) 0 2 * (v3 1 0 0).[2]) / x_init.[0])%R.
Proof.
  assert (Hm : x_init.[0] <> 0%R) by (unfold_params; lra).
  split; [exact Hm|]. exact (f_vel_dcm params_h x_init (v3 1 0 0) 0 Hm ltac:(lia)).
Defined.

Lemma f_euler_witness :
  consts_ok params_h /\
  ((J_B params_h).[1] * fR params_h x_init (v3 1 0 0) 12 =
    cross3 (r_T_B params_h) (v3 1 0 0) 1
    + ((J_B params_h).[2] - (J_B params_h).[0]) * omega x_init 2 * omega x_init 0)%R.
Proof.
  split; [exact params_h_ok|]. exact (f_euler params_h x_init (v3 1 0 0) 1 params_h_ok ltac:(lia)).
Defined.

Lemma f_thrust_norm_witness :
  qnorm2 (quat x_init) = 1%R /\ x_init.[0] <> 0%R /\
  norm2_3 (fun i => fR params_h x_init (v3 1 0 0) (4 + i) - g_I params_h i)%R =
    (norm2_3 (v3 1 0 0) / (x_init.[0] * x_init.[0]))%R.
Proof.
  assert (Hq : qnorm2 (quat x_init) = 1%R) by (unfold qnorm2, quat; unfold_params; lra).
  assert (Hm : x_init.[0] <> 0%R) by (unfold_params; lra).
  split_and!; [exact Hq|exact Hm|]. exact (f_thrust_norm params_h x_init (v3 1 0 0) Hq Hm).
Defined.
