(* ===== verification/Tape.v ===== *)
(** * Tape: the CppAD operation sequence and its forward sweeps

    [CppAD::Independent(x)] followed by an evaluation of the flow map on
    [AD<double>] scalars records the operations performed on the
    independent variables.  [expr] is that record: evaluating the generic
    flow map of [Dynamics] at [T := expr] on the variables [EVar k] builds
    it (instance [expr_arith]); the double constants of the code become
    parameters [ECst].

    Three readings of a tape:
    - [eval]: the zero-order forward sweep ([Forward(0, x)]) in double
      arithmetic, with the non-finite value;
    - [fwd]: the first-order forward sweep along a direction [d]: the
      value and the directional derivative, with CppAD's formulas
      ([z = x/y, z' = (x' - z y')/y]; [z = sqrt x, z' = x'/(2z)]); it is
      non-finite as soon as a divisor or a square root is zero;
    - [evalR] and [dR]: the exact value and tangent in total real
      arithmetic.

    Theorems: the sweeps agree with the exact readings wherever they are
    finite ([fwd_total], [fwd_some_inv], [eval_fin]), and the tangent of
    the forward sweep is the derivative of the recorded function along the
    seed direction ([fwd_correct]): forward-mode differentiation is
    correct. *)

From stdpp Require Import base list.
From Stdlib Require Import Reals Lra.
From S2P Require Import Prelude.

Inductive expr : Type :=
  | EVar (n : nat)
  | ECst (r : R)
  | EAdd (a b : expr)
  | ESub (a b : expr)
  | EMul (a b : expr)
  | EDiv (a b : expr)
  | EOpp (a : expr)
  | ESqrt (a : expr).

(** Operator overloading on [AD<double>]: every operation appends a node. *)
#[export] Instance expr_arith : Arith expr := {|
  a_cst := ECst; a_add := EAdd; a_sub := ESub; a_mul := EMul;
  a_div := EDiv; a_opp := EOpp; a_sqrt := ESqrt |}.

Section Sweeps.
Context (rho : vec R).

(** Zero-order forward sweep in double arithmetic. *)
Fixpoint eval (e : expr) : dbl :=
  match e with
  | EVar n => Some (rho n)
  | ECst r => Some r
  | EAdd a b => dadd (eval a) (eval b)
  | ESub a b => dsub (eval a) (eval b)
  | EMul a b => dmul (eval a) (eval b)
  | EDiv a b => ddiv (eval a) (eval b)
  | EOpp a => dopp (eval a)
  | ESqrt a => dsqrt (eval a)
  end.

(** Exact value, total arithmetic. *)
Fixpoint evalR (e : expr) : R :=
  match e with
  | EVar n => rho n
  | ECst r => r
  | EAdd a b => evalR a + evalR b
  | ESub a b => evalR a - evalR b
  | EMul a b => evalR a * evalR b
  | EDiv a b => evalR a / evalR b
  | EOpp a => - evalR a
  | ESqrt a => sqrt (evalR a)
  end%R.

Context (d : vec R).

(** First-order forward sweep: value and tangent along [d]. *)
Fixpoint fwd (e : expr) : option (R * R) :=
  match e with
  | EVar n => Some (rho n, d n)
  | ECst r => Some (r, 0%R)
  | EAdd a b =>
      '(va, ta) ← fwd a; '(vb, tb) ← fwd b; Some (va + vb, ta + tb)%R
  | ESub a b =>
      '(va, ta) ← fwd a; '(vb, tb) ← fwd b; Some (va - vb, ta - tb)%R
  | EMul a b =>
      '(va, ta) ← fwd a; '(vb, tb) ← fwd b; Some (va * vb, ta * vb + va * tb)%R
  | EDiv a b =>
      '(va, ta) ← fwd a; '(vb, tb) ← fwd b;
      if decide (vb = 0%R) then None
      else let z := (va / vb)%R in Some (z, (ta - z * tb) / vb)%R
  | EOpp a => '(va, ta) ← fwd a; Some (- va, - ta)%R
  | ESqrt a =>
      '(va, ta) ← fwd a;
      if decide (va < 0)%R then None
      else let z := sqrt va in
           if decide (z = 0%R) then None else Some (z, ta / (2 * z))%R
  end.

(** Exact tangent, total arithmetic. *)
Fixpoint dR (e : expr) : R :=
  match e with
  | EVar n => d n
  | ECst _ => 0
  | EAdd a b => dR a + dR b
  | ESub a b => dR a - dR b
  | EMul a b => dR a * evalR b + evalR a * dR b
  | EDiv a b => (dR a - evalR a / evalR b * dR b) / evalR b
  | EOpp a => - dR a
  | ESqrt a => dR a / (2 * sqrt (evalR a))
  end%R.

End Sweeps.

(** Where the forward sweep is finite: every divisor is nonzero and every
    square root is taken of a positive number. *)
Fixpoint fwd_ok (rho : vec R) (e : expr) : Prop :=
  match e with
  | EVar _ | ECst _ => True
  | EAdd a b | ESub a b | EMul a b => fwd_ok rho a /\ fwd_ok rho b
  | EDiv a b => fwd_ok rho a /\ fwd_ok rho b /\ evalR rho b <> 0%R
  | EOpp a => fwd_ok rho a
  | ESqrt a => fwd_ok rho a /\ (0 < evalR rho a)%R
  end.

(** The point [rho + s d] of the line through [rho] along [d]. *)
Definition shift (rho d : vec R) (s : R) : vec R := fun k => (rho k + s * d k)%R.

(** ** The sweeps against the exact readings *)

Lemma sqrt_pos_ne (v : R) : (0 < v)%R -> sqrt v <> 0%R.
Proof. intros Hv. apply Rgt_not_eq, sqrt_lt_R0, Hv. Qed.

(** Where [fwd_ok] holds, the forward sweep is finite and computes the
    exact value and tangent. *)
Lemma fwd_total (rho d : vec R) (e : expr) :
  fwd_ok rho e -> fwd rho d e = Some (evalR rho e, dR rho d e).
Proof.
  induction e as [n|r|a IHa b IHb|a IHa b IHb|a IHa b IHb|a IHa b IHb|a IHa|a IHa];
    cbn; intros Hok; destruct_and?;
    rewrite ?IHa, ?IHb by done; cbn;
    rewrite ?decide_False by (done || lra || (apply sqrt_pos_ne; lra)); reflexivity.
Qed.

(** Conversely a finite forward sweep has [fwd_ok] and computes the exact
    value and tangent. *)
Lemma fwd_some_inv (rho d : vec R) (e : expr) (v t : R) :
  fwd rho d e = Some (v, t) ->
  fwd_ok rho e /\ v = evalR rho e /\ t = dR rho d e.
Proof.
  revert v t.
  induction e as [n|r|a IHa b IHb|a IHa b IHb|a IHa b IHb|a IHa b IHb|a IHa|a IHa];
    cbn; intros v t Hf;
    repeat match type of Hf with
    | context [fwd rho d ?e'] =>
        let fe := fresh "fe" in let E := fresh "E" in
        remember (fwd rho d e') as fe eqn:E in Hf;
        destruct fe as [[? ?]|]; cbn in Hf; [|discriminate]; symmetry in E
    end;
    repeat match goal with
    | H : fwd rho d _ = Some _, IH : forall v t, fwd rho d ?e = Some _ -> _ |- _ =>
        apply IH in H as (? & -> & ->); clear IH
    end;
    repeat case_decide; simplify_eq/=; repeat split; auto.
  match goal with H : ~ (_ < 0)%R |- _ => apply Rnot_lt_le in H end.
  destruct (Rle_lt_or_eq_dec _ _ H0) as [Hlt|Heq]; [lra|].
  rewrite <- Heq, sqrt_0 in *; congruence.
Qed.

(** The zero-order sweep, where it is finite, computes the exact value. *)
Lemma eval_fin (rho : vec R) (e : expr) (v : R) :
  eval rho e = Some v -> v = evalR rho e.
Proof.
  revert v.
  induction e as [n|r|a IHa b IHb|a IHa b IHb|a IHa b IHb|a IHa b IHb|a IHa|a IHa];
    cbn; intros v Hv;
    repeat match goal with
    | IH : forall v, eval rho ?e = Some v -> _ |- _ =>
        destruct (eval rho e) as [?|]; [specialize (IH _ eq_refl) as ->|by destruct_or?]
    end;
    cbn in Hv; repeat case_decide; simplify_eq/=; try done.
  all: by destruct (eval rho b).
Qed.

(** Where [fwd_ok] holds the zero-order sweep is finite too. *)
Lemma eval_total (rho : vec R) (e : expr) :
  fwd_ok rho e -> eval rho e = Some (evalR rho e).
Proof.
  induction e as [n|r|a IHa b IHb|a IHa b IHb|a IHa b IHb|a IHa b IHb|a IHa|a IHa];
    cbn; intros Hok; destruct_and?; rewrite ?IHa, ?IHb by done; cbn; try done.
  - by rewrite decide_False.
  - by rewrite decide_False by lra.
Qed.

(** The first-order sweep's value is the zero-order sweep's. *)
Lemma fwd_eval (rho d : vec R) (e : expr) (v t : R) :
  fwd rho d e = Some (v, t) -> eval rho e = Some v.
Proof.
  intros (Hok & -> & _)%fwd_some_inv. by apply eval_total.
Qed.

(** A square root of a zero value has no finite derivative: the sweep
    divides the tangent by [2 * sqrt 0]. *)
Lemma fwd_sqrt_zero (rho d : vec R) (a : expr) (t : R) :
  fwd rho d a = Some (0%R, t) -> fwd rho d (ESqrt a) = None.
Proof.
  intros Ha. cbn. rewrite Ha. cbn. rewrite decide_False by lra.
  by rewrite sqrt_0, decide_True.
Qed.

(** A non-finite factor makes a product non-finite. *)
Lemma fwd_mul_none_r (rho d : vec R) (a b : expr) :
  fwd rho d b = None -> fwd rho d (EMul a b) = None.
Proof. intros Hb. cbn. destruct (fwd rho d a) as [[]|]; cbn; by rewrite ?Hb. Qed.

#[export] Hint Resolve fwd_total eval_total : scpp.

(** ** Forward mode computes derivatives *)

Lemma dlim_eq (f g : R -> R) (x l l' : R) :
  derivable_pt_lim f x l -> l = l' -> (forall s, f s = g s) -> derivable_pt_lim g x l'.
Proof. intros Hd <- Hfg. by apply (derivable_pt_lim_ext f g). Qed.

Lemma dlim_affine (a b x : R) : derivable_pt_lim (fun s => a + s * b)%R x b.
Proof.
  eapply dlim_eq.
  - apply (derivable_pt_lim_plus (fct_cte a) (mult_real_fct b id)).
    + apply derivable_pt_lim_const.
    + apply derivable_pt_lim_scal, derivable_pt_lim_id.
  - ring.
  - intros s. unfold plus_fct, fct_cte, mult_real_fct, id. ring.
Qed.

Lemma evalR_ext (rho rho' : vec R) (e : expr) :
  (forall k, rho k = rho' k) -> evalR rho e = evalR rho' e.
Proof. intros Hr. induction e; cbn; congruence. Qed.

Lemma evalR_shift0 (rho d : vec R) (e : expr) : evalR (shift rho d 0) e = evalR rho e.
Proof. apply evalR_ext. intros k. unfold shift. ring. Qed.

(** The exact tangent is the derivative, at [s = 0], of the recorded
    function along the line [rho + s d], wherever the sweep is finite. *)
Lemma dR_deriv (rho d : vec R) (e : expr) :
  fwd_ok rho e ->
  derivable_pt_lim (fun s => evalR (shift rho d s) e) 0 (dR rho d e).
Proof.
  induction e as [n|r|a IHa b IHb|a IHa b IHb|a IHa b IHb|a IHa b IHb|a IHa|a IHa];
    cbn; intros Hok; destruct_and?.
  - apply dlim_affine.
  - apply derivable_pt_lim_const.
  - by apply (derivable_pt_lim_plus (fun s => evalR (shift rho d s) a)
                                    (fun s => evalR (shift rho d s) b)); auto.
  - by apply (derivable_pt_lim_minus (fun s => evalR (shift rho d s) a)
                                     (fun s => evalR (shift rho d s) b)); auto.
  - eapply dlim_eq; [apply (derivable_pt_lim_mult (fun s => evalR (shift rho d s) a)
                                                  (fun s => evalR (shift rho d s) b)); auto| |done].
    rewrite !evalR_shift0. ring.
  - eapply dlim_eq; [apply (derivable_pt_lim_div (fun s => evalR (shift rho d s) a)
                                                 (fun s => evalR (shift rho d s) b)); auto;
                     by rewrite evalR_shift0| |done].
    rewrite !evalR_shift0. unfold Rsqr. field. done.
  - eapply dlim_eq; [apply (derivable_pt_lim_opp (fun s => evalR (shift rho d s) a)); auto| |done].
    done.
  - eapply dlim_eq; [apply (derivable_pt_lim_comp (fun s => evalR (shift rho d s) a) sqrt); auto| |done].
    + apply derivable_pt_lim_sqrt. by rewrite evalR_shift0.
    + rewrite evalR_shift0. field. by apply sqrt_pos_ne.
Qed.

(** Correctness of forward-mode differentiation: when the first-order
    forward sweep along [d] at [rho] returns [(v, t)], [v] is the exact value
    of the recorded function at [rho] and [t] is the derivative at [s = 0]
    of [s |-> F(rho + s d)]. *)
Theorem fwd_correct (rho d : vec R) (e : expr) (v t : R) :
  fwd rho d e = Some (v, t) ->
  v = evalR rho e /\ derivable_pt_lim (fun s => evalR (shift rho d s) e) 0 t.
Proof.
  intros (Hok & -> & ->)%fwd_some_inv. split; [done|]. by apply dR_deriv.
Qed.

(** ** Witnesses *)

(** At [rho = 3] the tape [x0 * x0] has tangent [6] along [e_0], the
    derivative of [s |-> (3 + s)^2] at [0]. *)
Lemma fwd_correct_witness :
  fwd (fun _ => 3%R) (unitv 0) (EMul (EVar 0) (EVar 0)) = Some (3 * 3, 1 * 3 + 3 * 1)%R /\
  (3 * 3)%R = evalR (fun _ => 3%R) (EMul (EVar 0) (EVar 0)) /\
  derivable_pt_lim (fun s => evalR (shift (fun _ => 3%R) (unitv 0) s) (EMul (EVar 0) (EVar 0)))
    0 (1 * 3 + 3 * 1)%R.
Proof.
  assert (H : fwd (fun _ => 3%R) (unitv 0) (EMul (EVar 0) (EVar 0)) = Some (3 * 3, 1 * 3 + 3 * 1)%R)
    by reflexivity.
  split; [exact H|]. exact (fwd_correct _ _ _ _ _ H).
Defined.
