(* ===== verification/Jacobians.v ===== *)
(** * Jacobians: the closed-form [A] and [B] of params.h (lines 55-187)

    Both functions declare a fixed-size Eigen matrix ([Matrix14d A;],
    [Matrix14x3d B;]), assign some of its coefficients from precomputed
    subexpressions [t2 ... t32], and return [sigma * A].  A fixed-size Eigen
    matrix is not zero-initialized: the coefficients that are never assigned
    hold whatever the storage held.  The model makes that storage an
    explicit argument [init]; the assignments are [mset] in source order.

    Theorems: the coefficients outside the assigned pattern are
    [sigma * init] ([A_unassigned], [B_unassigned]), so the result is the
    intended Jacobian only if the storage happened to be zero; the
    mass-flow row of [B] divides [u_j] by [|u_j|] and is non-finite as soon
    as one thrust component is zero ([B_mass_row_nan]).  The agreement of
    the assigned coefficients with the derivatives is in [CrossCheck]. *)

From stdpp Require Import base list.
From Stdlib Require Import Reals Lra.
From S2P Require Import Prelude Params.

Section ClosedForm.
Context (P : consts).
Local Open Scope scpp_scope.

Definition A (init : mat dbl) (x u : vec dbl) (sigma : dbl) : mat dbl :=
  let t2 := cst 1 / (x.[0] * x.[0]) in
  let t3 := cst 1 / x.[0] in
  let t4 := x.[10] * x.[10] in
  let t5 := t4 * cst 2 in
  let t6 := x.[7] * x.[10] * cst 2 in
  let t7 := x.[8] * x.[9] * cst 2 in
  let t8 := t3 * u.[2] * x.[8] * cst 2 in
  let t9 := t3 * u.[2] * x.[10] * cst 2 in
  let t10 := x.[8] * x.[8] in
  let t11 := t10 * cst 2 in
  let t12 := x.[9] * x.[9] in
  let t13 := t12 * cst 2 in
  let t14 := x.[7] * x.[9] * cst 2 in
  let t15 := x.[7] * x.[8] * cst 2 in
  let t16 := x.[9] * x.[10] * cst 2 in
  let t17 := t3 * u.[0] * x.[9] * cst 2 in
  let t18 := t3 * u.[1] * x.[8] * cst 2 in
  let t19 := t3 * u.[1] * x.[7] * cst 2 in
  let t20 := t3 * u.[1] * x.[10] * cst 2 in
  let t21 := t3 * u.[0] * x.[8] * cst 2 in
  let t22 := t3 * u.[1] * x.[9] * cst 2 in
  let t23 := x.[13] * cst (1 / 2) in
  let t24 := x.[11] * cst (1 / 2) in
  let t25 := x.[7] * cst (1 / 2) in
  let t26 := x.[12] * cst (1 / 2) in
  let t27 := x.[9] * cst (1 / 2) in
  let t28 := cst 1 / cst (J_B P 0) in
  let t29 := cst 1 / cst (J_B P 1) in
  let t30 := cst (J_B P 1) * x.[12] in
  let t31 := cst 1 / cst (J_B P 2) in
  let t32 := cst (J_B P 0) * x.[11] in
  let M := init in
  let M := mset M 1 4 (cst 1) in
  let M := mset M 2 5 (cst 1) in
  let M := mset M 3 6 (cst 1) in
  let M := mset M 4 0 (t2 * u.[2] * (t14 - x.[8] * x.[10] * cst 2) - t2 * u.[1] * (t6 + t7)
                       + t2 * u.[0] * (t5 + t13 - cst 1)) in
  let M := mset M 4 7 (t20 - t3 * u.[2] * x.[9] * cst 2) in
  let M := mset M 4 8 (t9 + t22) in
  let M := mset M 4 9 (t18 - t3 * u.[0] * x.[9] * cst 4 - t3 * u.[2] * x.[7] * cst 2) in
  let M := mset M 4 10 (t8 + t19 - t3 * u.[0] * x.[10] * cst 4) in
  let M := mset M 5 0 (t2 * u.[1] * (t5 + t11 - cst 1) - t2 * u.[2] * (t15 + t16)
                       + t2 * u.[0] * (t6 - t7)) in
  let M := mset M 5 7 (t8 - t3 * u.[0] * x.[10] * cst 2) in
  let M := mset M 5 8 (t17 - t3 * u.[1] * x.[8] * cst 4 + t3 * u.[2] * x.[7] * cst 2) in
  let M := mset M 5 9 (t9 + t21) in
  let M := mset M 5 10 (t3 * u.[0] * x.[7] * cst (-2) - t3 * u.[1] * x.[10] * cst 4
                        + t3 * u.[2] * x.[9] * cst 2) in
  let M := mset M 6 0 (- t2 * u.[0] * (t14 + x.[8] * x.[10] * cst 2)
                       + t2 * u.[2] * (t11 + t13 - cst 1) + t2 * u.[1] * (t15 - t16)) in
  let M := mset M 6 7 (t17 - t18) in
  let M := mset M 6 8 (- t19 + t3 * u.[0] * x.[10] * cst 2 - t3 * u.[2] * x.[8] * cst 4) in
  let M := mset M 6 9 (t20 + t3 * u.[0] * x.[7] * cst 2 - t3 * u.[2] * x.[9] * cst 4) in
  let M := mset M 6 10 (t21 + t22) in
  let M := mset M 7 8 (x.[11] * cst (-1 / 2)) in
  let M := mset M 7 9 (x.[12] * cst (-1 / 2)) in
  let M := mset M 7 10 (x.[13] * cst (-1 / 2)) in
  let M := mset M 7 11 (x.[8] * cst (-1 / 2)) in
  let M := mset M 7 12 (x.[9] * cst (-1 / 2)) in
  let M := mset M 7 13 (x.[10] * cst (-1 / 2)) in
  let M := mset M 8 7 t24 in
  let M := mset M 8 9 t23 in
  let M := mset M 8 10 (x.[12] * cst (-1 / 2)) in
  let M := mset M 8 11 t25 in
  let M := mset M 8 12 (x.[10] * cst (-1 / 2)) in
  let M := mset M 8 13 t27 in
  let M := mset M 9 7 t26 in
  let M := mset M 9 8 (- t23) in
  let M := mset M 9 10 t24 in
  let M := mset M 9 11 (x.[10] * cst (1 / 2)) in
  let M := mset M 9 12 t25 in
  let M := mset M 9 13 (x.[8] * cst (-1 / 2)) in
  let M := mset M 10 7 t23 in
  let M := mset M 10 8 t26 in
  let M := mset M 10 9 (- t24) in
  let M := mset M 10 11 (- t27) in
  let M := mset M 10 12 (x.[8] * cst (1 / 2)) in
  let M := mset M 10 13 t25 in
  let M := mset M 11 12 (t28 * (cst (J_B P 1) * x.[13] - cst (J_B P 2) * x.[13])) in
  let M := mset M 11 13 (t28 * (t30 - cst (J_B P 2) * x.[12])) in
  let M := mset M 12 11 (- t29 * (cst (J_B P 0) * x.[13] - cst (J_B P 2) * x.[13])) in
  let M := mset M 12 13 (- t29 * (t32 - cst (J_B P 2) * x.[11])) in
  let M := mset M 13 11 (- t31 * (t30 - cst (J_B P 0) * x.[12])) in
  let M := mset M 13 12 (t31 * (t32 - cst (J_B P 1) * x.[11])) in
  mscale sigma M.

Definition B (init : mat dbl) (x u : vec dbl) (sigma : dbl) : mat dbl :=
  let t2 := dabs (u.[0]) in
  let t3 := dabs (u.[1]) in
  let t4 := dabs (u.[2]) in
  let t5 := t2 * t2 in
  let t6 := t3 * t3 in
  let t7 := t4 * t4 in
  let t8 := t5 + t6 + t7 in
  let t9 := cst 1 / a_sqrt t8 in
  let t10 := cst 1 / x.[0] in
  let t11 := x.[7] * x.[10] * cst 2 in
  let t12 := x.[8] * x.[9] * cst 2 in
  let t13 := x.[10] * x.[10] in
  let t14 := t13 * cst 2 in
  let t15 := x.[7] * x.[9] * cst 2 in
  let t16 := x.[7] * x.[8] * cst 2 in
  let t17 := x.[9] * x.[10] * cst 2 in
  let t18 := x.[8] * x.[8] in
  let t19 := t18 * cst 2 in
  let t20 := x.[9] * x.[9] in
  let t21 := t20 * cst 2 in
  let t22 := cst 1 / cst (J_B P 0) in
  let t23 := cst 1 / cst (J_B P 1) in
  let t24 := cst 1 / cst (J_B P 2) in
  let M := init in
  let M := mset M 0 0 (cst (- alpha_m P) * t2 * t9 * (u.[0] / dabs (u.[0]))) in
  let M := mset M 0 1 (cst (- alpha_m P) * t3 * t9 * (u.[1] / dabs (u.[1]))) in
  let M := mset M 0 2 (cst (- alpha_m P) * t4 * t9 * (u.[2] / dabs (u.[2]))) in
  let M := mset M 4 0 (- t10 * (t14 + t21 - cst 1)) in
  let M := mset M 4 1 (t10 * (t11 + t12)) in
  let M := mset M 4 2 (- t10 * (t15 - x.[8] * x.[10] * cst 2)) in
  let M := mset M 5 0 (- t10 * (t11 - t12)) in
  let M := mset M 5 1 (- t10 * (t14 + t19 - cst 1)) in
  let M := mset M 5 2 (t10 * (t16 + t17)) in
  let M := mset M 6 0 (t10 * (t15 + x.[8] * x.[10] * cst 2)) in
  let M := mset M 6 1 (- t10 * (t16 - t17)) in
  let M := mset M 6 2 (- t10 * (t19 + t21 - cst 1)) in
  let M := mset M 11 1 (cst (- r_T_B P 2) * t22) in
  let M := mset M 11 2 (cst (r_T_B P 1) * t22) in
  let M := mset M 12 0 (cst (r_T_B P 2) * t23) in
  let M := mset M 12 2 (cst (- r_T_B P 0) * t23) in
  let M := mset M 13 0 (cst (- r_T_B P 1) * t24) in
  let M := mset M 13 1 (cst (r_T_B P 0) * t24) in
  mscale sigma M.

End ClosedForm.

(** ** The assigned patterns *)

(** The coefficients of [A] that the source assigns (38 of 196). *)
Definition A_assigned (i j : nat) : bool :=
  match i with
  | 1 => j =? 4 | 2 => j =? 5 | 3 => j =? 6
  | 4 | 5 | 6 => (j =? 0) || ((7 <=? j) && (j <=? 10))
  | 7 => (8 <=? j) && (j <=? 13)
  | 8 => (j =? 7) || ((9 <=? j) && (j <=? 13))
  | 9 => (7 <=? j) && (j <=? 13) && negb (j =? 9)
  | 10 => (7 <=? j) && (j <=? 13) && negb (j =? 10)
  | 11 => (j =? 12) || (j =? 13)
  | 12 => (j =? 11) || (j =? 13)
  | 13 => (j =? 11) || (j =? 12)
  | _ => false
  end.

(** The coefficients of [B] that the source assigns (18 of 42). *)
Definition B_assigned (i j : nat) : bool :=
  match i with
  | 0 | 4 | 5 | 6 => j <? 3
  | 11 => (j =? 1) || (j =? 2)
  | 12 => (j =? 0) || (j =? 2)
  | 13 => (j =? 0) || (j =? 1)
  | _ => false
  end.

(** ** Unassigned coefficients *)

(** Steps over the assignments [M(a,b) = v] that do not touch the
    coefficient [(i, j)] read in the goal. *)
Ltac skip_msets Hpat :=
  repeat (rewrite mset_other; [|intros [= -> ->]; discriminate Hpat]).

(** C9: Outside the assigned pattern, [A] returns [sigma] times the
    uninitialized storage: the coefficient is only right when the storage
    happened to hold zero. *)
Lemma A_unassigned (P : consts) (init : mat dbl) (x u : vec dbl) (sigma : dbl) (i j : nat) :
  A_assigned i j = false -> A P init x u sigma i j = dmul sigma (init i j).
Proof. intros Hpat. unfold A, mscale. cbv beta zeta. by skip_msets Hpat. Qed.

Lemma B_unassigned (P : consts) (init : mat dbl) (x u : vec dbl) (sigma : dbl) (i j : nat) :
  B_assigned i j = false -> B P init x u sigma i j = dmul sigma (init i j).
Proof. intros Hpat. unfold B, mscale. cbv beta zeta. by skip_msets Hpat. Qed.

(** A zero thrust component makes the mass-flow coefficient of [B] for
    that component non-finite. *)
Lemma B_mass_coeff_none (P : consts) (init : mat dbl) (x u : vec dbl) (sigma : dbl) (j : nat) :
  j < 3 -> u j = Some 0%R -> B P init x u sigma 0 j = None.
Proof.
  intros Hj Hu. unfold B, mscale. cbv beta zeta.
  destruct j as [|[|[|j]]]; try lia; cbn -[ddiv dabs dmul]; rewrite Hu;
    cbn -[ddiv dmul]; rewrite Rabs_R0, ddiv_zero; by rewrite !dmul_None_r.
Qed.

(** C8: The mass-flow row of [B] is [-alpha_m |u_j| / |u| * (u_j / |u_j|)]: when
    a thrust component is zero the quotient [0 / |0|] is NaN and the
    coefficient is non-finite, whatever the other inputs, even for a
    nonzero thrust vector such as [u = (1, 0, 0)]. *)
Theorem B_mass_row_nan (P : consts) (init : mat dbl) (x u : vec dbl) (sigma : dbl) (j : nat) :
  j < 3 -> u j = Some 0%R -> B P init x u sigma 0 j = None.
Proof. exact (B_mass_coeff_none P init x u sigma j). Qed.

(** ** Witnesses *)

Lemma B_mass_row_nan_witness :
  fin (v3 1 0 0) 1 = Some 0%R /\
  B params_h (fun _ _ => None) (fin x_init) (fin (v3 1 0 0)) (Some 1%R) 0 1 = None.
Proof.
  assert (Hu : fin (v3 1 0 0) 1 = Some 0%R) by reflexivity.
  split; [exact Hu|]. exact (B_mass_row_nan _ _ _ _ _ 1 ltac:(lia) Hu).
Defined.

Lemma A_unassigned_witness :
  A_assigned 0 0 = false /\
  A params_h (fun _ _ => Some 5%R) (fin x_init) (fin (v3 1 0 0)) (Some 2%R) 0 0 =
    dmul (Some 2%R) (Some 5%R).
Proof.
  split; [reflexivity|]. exact (A_unassigned _ _ _ _ _ 0 0 eq_refl).
Defined.
