(* ===== verification/SparseJac.v ===== *)
(** * SparseJac: the library calls the engine relies on

    systemModel.hpp uses two library operations, modelled here at the level
    of their documented contracts (the libraries are not part of the
    repository):
    - [CppAD::ADFun<double>]: a recorded function, its domain size and one
      tape expression per output ([ADFun]); a default-constructed [ADFun]
      has recorded nothing ([ADFun_empty]);
    - [f.SparseJacobianForward(x, p, row, col, jac, work)]: it asserts its
      preconditions (sizes of [x], [p], [row], [col] against [jac] and the
      dimensions, every [row[k] < m] and [col[k] < n], and every requested
      pair [(row[k], col[k])] flagged in the row-major pattern [p],
      [pattern_covers]) and fills [jac[k] = dF_{row[k]} / dx_{col[k]}],
      each entry the tangent of a first-order forward sweep seeded with
      the unit vector of column [col[k]] ([jac_entry]).  A failed
      assertion ([CPPAD_ASSERT_KNOWN], active in a build without
      [NDEBUG]) is [None].  The column colouring CppAD uses to share
      sweeps between columns is in [Colouring];
    - [Eigen::Map<Matrix<double, rows, cols>>(data)]: a column-major view
      of a buffer ([map_colmajor]). *)

From stdpp Require Import base list.
From Stdlib Require Import Reals Lra.
From S2P Require Import Prelude Tape.

Record ADFun := mkADFun { Domain : nat; Range : list expr }.

Definition ADFun_empty : ADFun := mkADFun 0 [].

(** [dF_r / dx_c] at [x]: output [r] of the forward sweep seeded with
    [e_c]; non-finite when the sweep is, or when [r] is not an output. *)
Definition jac_entry (F : ADFun) (x : vec R) (r c : nat) : dbl :=
  match Range F !! r with
  | Some e => snd <$> fwd x (unitv c) e
  | None => None
  end.

(** The pattern [p] (row-major, [n] columns) flags every requested entry. *)
Definition pattern_covers (n : nat) (p : list bool) (row col : list nat) : bool :=
  forallb (fun rc => bool_decide (p !! (rc.1 * n + rc.2) = Some true)) (zip row col).

(** The assertions of [SparseJacobianForward]; [K] is [jac.size()].  The
    last one is CppAD's check, on the call that computes the colouring,
    that every requested entry is possibly nonzero in [p]. *)
Definition sjf_pre (F : ADFun) (x : list R) (p : list bool) (row col : list nat) (K : nat) : Prop :=
  length x = Domain F /\ length p = length (Range F) * Domain F /\
  length row = K /\ length col = K /\
  Forall (fun r => r < length (Range F)) row /\ Forall (fun c => c < Domain F) col /\
  pattern_covers (Domain F) p row col = true.

#[export] Instance sjf_pre_dec F x p row col K : Decision (sjf_pre F x p row col K).
Proof. unfold sjf_pre. apply _. Defined.

Definition SparseJacobianForward (F : ADFun) (x : list R) (p : list bool)
    (row col : list nat) (K : nat) : option (list dbl) :=
  if decide (sjf_pre F x p row col K)
  then Some (zip_with (jac_entry F (vec_of_list 0%R x)) row col)
  else None.

(** [Eigen::Map<Matrix<double, rows, cols>>(data)]: coefficient [(i, j)] is
    [data[i + rows * j]]. *)
Definition map_colmajor (rows : nat) (data : list dbl) : mat dbl :=
  fun i j => nth (i + rows * j) data None.

(** ** Lemmas *)

Lemma sjf_some (F : ADFun) x p row col K jac :
  SparseJacobianForward F x p row col K = Some jac ->
  sjf_pre F x p row col K /\ jac = zip_with (jac_entry F (vec_of_list 0%R x)) row col.
Proof. unfold SparseJacobianForward. case_decide; naive_solver. Qed.

Lemma sjf_ok (F : ADFun) x p row col K :
  sjf_pre F x p row col K ->
  SparseJacobianForward F x p row col K = Some (zip_with (jac_entry F (vec_of_list 0%R x)) row col).
Proof. intros Hpre. unfold SparseJacobianForward. by rewrite decide_True. Qed.

Lemma sjf_fail (F : ADFun) x p row col K :
  ~ sjf_pre F x p row col K -> SparseJacobianForward F x p row col K = None.
Proof. intros Hpre. unfold SparseJacobianForward. by rewrite decide_False. Qed.

(** The [k]-th coefficient of the Jacobian buffer. *)
Lemma sjf_nth (F : ADFun) x p row col K jac k :
  SparseJacobianForward F x p row col K = Some jac -> k < K ->
  nth k jac None = jac_entry F (vec_of_list 0%R x) (nth k row 0) (nth k col 0).
Proof.
  intros (Hpre & ->)%sjf_some Hk. destruct Hpre as (_ & _ & Hr & Hc & _).
  rewrite <- Hr in Hk.
  destruct (lookup_lt_is_Some_2 row k) as [r Hrk]; [lia|].
  destruct (lookup_lt_is_Some_2 col k) as [c Hck]; [lia|].
  rewrite (nth_lookup_Some row k 0 r), (nth_lookup_Some col k 0 c) by done.
  apply nth_lookup_Some. by rewrite lookup_zip_with, Hrk, Hck.
Qed.
