(* ===== verification/Colouring.v ===== *)
(** * Colouring: how CppAD evaluates a sparse Jacobian, and its work object

    [SparseJacobianForward(x, p, row, col, jac, work)] does not run one
    forward sweep per column.  On its first call, with an empty [work], it
    colours the columns that appear in [col]: two of them may share a
    colour only if no row of the pattern [p] flags both; a column that is
    not requested gets the colour [n] ("not used").  It stores the
    colouring in [work] and reuses it on every later call.  Each colour
    [g < n] costs one first-order sweep seeded with the sum of the unit
    vectors of the columns of colour [g] ([seed]), and coefficient
    [(r, c)] is read off output [r] of the sweep of the colour of [c]
    ([jac_entry_col]).

    The colouring algorithm of CppAD is not part of the repository.  The
    model uses the greedy first-fit colouring ([color_general]): requested
    column [j] takes the least colour not used by an earlier requested
    column it conflicts with.  The theorems about the engine only use that
    the colouring is valid for [p] ([color_general_valid]), which is what
    CppAD documents.

    The coloured evaluation is exact, i.e. equal to the per-column contract
    [SparseJac.SparseJacobianForward], as soon as the colouring separates
    each requested column [c] from the other inputs that output [r]
    structurally depends on ([separates]).  It does when the pattern
    covers the structural dependences and flags the requested entries
    ([separates_of_cover]); CppAD asserts the second and documents the
    first as a requirement on [p] ([pattern_sound]).  Under it the
    coloured evaluation, with an empty or cached work object, refines the
    contract ([sparse_jacobian_sound_refines]). *)

From stdpp Require Import base list.
From Stdlib Require Import Reals Lra.
From S2P Require Import Prelude Tape SparseJac.

(** ** Structural dependence *)

(** Input [j] occurs in the tape expression [e]: the operation sequence
    reads the independent variable [j]. *)
Fixpoint occurs (j : nat) (e : expr) : bool :=
  match e with
  | EVar n => n =? j
  | ECst _ => false
  | EAdd a b | ESub a b | EMul a b | EDiv a b => occurs j a || occurs j b
  | EOpp a | ESqrt a => occurs j a
  end.

(** ** Column colouring *)

(** The flag of entry [(r, c)] in a row-major pattern with [n] columns. *)
Definition flag (n : nat) (p : list bool) (r c : nat) : bool :=
  bool_decide (p !! (r * n + c) = Some true).

(** Columns [i] and [j] conflict when some row [r < m] flags both. *)
Definition conflict (m n : nat) (p : list bool) (i j : nat) : bool :=
  existsb (fun r => flag n p r i && flag n p r j) (seq 0 m).

(** Column [j] appears in the requested index list [col]. *)
Definition requested (col : list nat) (j : nat) : bool := bool_decide (j ∈ col).

(** One step of the greedy colouring.  The next column [j = length cs]
    gets [n] when it is not requested; otherwise the least colour below
    [j] that no earlier requested column it conflicts with uses, and [j]
    if there is none. *)
Definition color_step (m n : nat) (p : list bool) (req : nat -> bool) (cs : list nat) : list nat :=
  let j := length cs in
  if req j then
    let forbidden := map (fun i => nth i cs 0)
                       (List.filter (fun i => req i && conflict m n p i j) (seq 0 j)) in
    cs ++ [default j (List.find (fun k => negb (bool_decide (k ∈ forbidden))) (seq 0 j))]
  else cs ++ [n].

Fixpoint color_upto (m n : nat) (p : list bool) (req : nat -> bool) (k : nat) : list nat :=
  match k with
  | 0 => []
  | S k => color_step m n p req (color_upto m n p req k)
  end.

(** The colouring of the [n] columns of an [m] x [n] pattern. *)
Definition color_general (m n : nat) (p : list bool) (req : nat -> bool) : list nat :=
  color_upto m n p req n.

(** A colouring is valid for [p]: one colour per column, [n] exactly on the
    columns not requested, and different colours on conflicting requested
    columns. *)
Definition colouring_valid (m n : nat) (p : list bool) (req : nat -> bool) (color : list nat) : Prop :=
  length color = n /\
  (forall j, j < n -> req j = false -> color !! j = Some n) /\
  (forall j, j < n -> req j = true -> exists g, color !! j = Some g /\ g < n) /\
  (forall i j, i < n -> j < n -> i <> j -> req i = true -> req j = true ->
     conflict m n p i j = true -> color !! i <> color !! j).

(** ** The work object and the coloured evaluation *)

(** [CppAD::sparse_jacobian_work]: the colouring, empty until the first
    call. *)
Record sparse_jacobian_work := mk_work { color : list nat }.

Definition work_empty : sparse_jacobian_work := mk_work [].

(** The seed of colour [g]: one on every column of colour [g]. *)
Definition seed (color : list nat) (g : nat) : vec R :=
  fun j => if decide (color !! j = Some g) then 1%R else 0%R.

(** Coefficient [(r, c)] read off the sweep of the colour of column [c]. *)
Definition jac_entry_col (F : ADFun) (x : vec R) (color : list nat) (r c : nat) : dbl :=
  match Range F !! r, color !! c with
  | Some e, Some g => snd <$> fwd x (seed color g) e
  | _, _ => None
  end.

(** The colouring a call uses: the cached one, or a fresh one when the
    work object is empty. *)
Definition used_color (F : ADFun) (p : list bool) (col : list nat) (work : sparse_jacobian_work)
    : list nat :=
  match color work with
  | [] => color_general (length (Range F)) (Domain F) p (requested col)
  | cs => cs
  end.

(** [SparseJacobianForward] with its work object: the assertions, then the
    coloured sweeps; the work object comes back holding the colouring. *)
Definition SparseJacobianForwardW (F : ADFun) (x : list R) (p : list bool)
    (row col : list nat) (K : nat) (work : sparse_jacobian_work)
    : option (list dbl * sparse_jacobian_work) :=
  if decide (sjf_pre F x p row col K) then
    let cs := used_color F p col work in
    Some (zip_with (jac_entry_col F (vec_of_list 0%R x) cs) row col, mk_work cs)
  else None.

(** The colouring separates column [c] in output [e]: every other input
    [e] depends on has another colour. *)
Definition separates (color : list nat) (e : expr) (c : nat) : Prop :=
  forall j, occurs j e = true -> j <> c -> color !! j <> color !! c.

(** The work object is consistent with the function and the pattern: it is
    empty or holds the colouring a first call computes. *)
Definition cache_ok (F : ADFun) (p : list bool) (col : list nat) (w : sparse_jacobian_work) : Prop :=
  color w = [] \/ color w = color_general (length (Range F)) (Domain F) p (requested col).

(** The pattern [p] is a sparsity pattern for [F], as CppAD requires of
    the [p] it is given: it flags every input [j < Domain F] each output
    reads. *)
Definition pattern_sound (F : ADFun) (p : list bool) : bool :=
  forallb (fun r =>
    match Range F !! r with
    | Some e => forallb (fun j => implb (occurs j e) (flag (Domain F) p r j)) (seq 0 (Domain F))
    | None => true
    end) (seq 0 (length (Range F))).

(** ** The sweep depends on the seed only at the inputs that occur *)

Lemma fwd_local (rho d d' : vec R) (e : expr) :
  (forall j, occurs j e = true -> d j = d' j) -> fwd rho d e = fwd rho d' e.
Proof.
  induction e as [n|r|a IHa b IHb|a IHa b IHb|a IHa b IHb|a IHa b IHb|a IHa|a IHa];
    cbn; intros Hd;
    rewrite ?IHa, ?IHb by (intros j Hj; apply Hd; rewrite Hj; auto with bool); try done.
  by rewrite (Hd n (Nat.eqb_refl n)).
Qed.

(** On the inputs of [e], the seed of the colour of a separated column is
    that column's unit vector. *)
Lemma seed_unit (color : list nat) (e : expr) (c g : nat) :
  color !! c = Some g -> separates color e c ->
  forall j, occurs j e = true -> seed color g j = unitv c j.
Proof.
  intros Hc Hsep j Hj. unfold seed, unitv.
  destruct (Nat.eqb_spec j c) as [->|Hjc].
  - by rewrite decide_True.
  - rewrite decide_False; [done|]. rewrite <- Hc. by apply Hsep.
Qed.

(** A coefficient of a separated column is the per-column coefficient. *)
Lemma jac_entry_col_exact (F : ADFun) (x : vec R) (color : list nat) (r c : nat) (e : expr) :
  Range F !! r = Some e -> is_Some (color !! c) -> separates color e c ->
  jac_entry_col F x color r c = jac_entry F x r c.
Proof.
  intros He [g Hg] Hsep. unfold jac_entry_col, jac_entry. rewrite He, Hg.
  f_equal. apply fwd_local. exact (seed_unit color e c g Hg Hsep).
Qed.

(** ** The greedy colouring is valid *)

Lemma length_color_upto (m n : nat) (p : list bool) (req : nat -> bool) (k : nat) :
  length (color_upto m n p req k) = k.
Proof.
  induction k as [|k IH]; cbn; [done|]. unfold color_step. cbv zeta.
  destruct (req _); rewrite length_app, IH; cbn; lia.
Qed.

Lemma length_color_general (m n : nat) (p : list bool) (req : nat -> bool) :
  length (color_general m n p req) = n.
Proof. apply length_color_upto. Qed.

Lemma conflict_sym (m n : nat) (p : list bool) (i j : nat) :
  conflict m n p i j = conflict m n p j i.
Proof. unfold conflict. induction (seq 0 m) as [|r rs IH]; cbn; [done|]. by rewrite andb_comm, IH. Qed.

(** The colour the step gives column [j = length cs < n]: [n] when [j] is
    not requested; otherwise at most [j] and different from the colours of
    the earlier requested columns it conflicts with, provided each earlier
    requested column [i] has a colour at most [i]. *)
Lemma color_step_new (m n : nat) (p : list bool) (req : nat -> bool) (cs : list nat) :
  length cs < n ->
  (forall i, i < length cs -> req i = true -> nth i cs 0 <= i) ->
  let c := nth (length cs) (color_step m n p req cs) 0 in
  (req (length cs) = false -> c = n) /\
  (req (length cs) = true -> c <= length cs /\
     forall i, i < length cs -> req i = true -> conflict m n p i (length cs) = true ->
       nth i cs 0 <> c).
Proof.
  intros Hn Hle. cbv zeta. unfold color_step. cbv zeta.
  destruct (req (length cs)) eqn:Hj; rewrite app_nth2, Nat.sub_diag by lia; cbn [nth];
    split; intros H; try congruence.
  destruct (List.find _ _) as [k|] eqn:Hf; cbn [default Datatypes.id].
  - apply List.find_some in Hf as [Hk%in_seq Hfree]. split; [lia|].
    intros i Hi Hri Hc <-. apply negb_true_iff, bool_decide_eq_false in Hfree. apply Hfree.
    apply list_elem_of_In, in_map_iff. exists i. split; [done|].
    apply filter_In. split; [apply in_seq; lia|by rewrite Hri, Hc].
  - split; [lia|]. intros i Hi Hri _ Heq. specialize (Hle i Hi Hri). lia.
Qed.

Lemma color_upto_inv (m n : nat) (p : list bool) (req : nat -> bool) (k : nat) :
  k <= n ->
  (forall i, i < k -> req i = true -> nth i (color_upto m n p req k) 0 <= i) /\
  (forall i, i < k -> req i = false -> nth i (color_upto m n p req k) 0 = n) /\
  (forall i j, i < j -> j < k -> req i = true -> req j = true -> conflict m n p i j = true ->
     nth i (color_upto m n p req k) 0 <> nth j (color_upto m n p req k) 0).
Proof.
  induction k as [|k IH]; intros Hk; [split_and!; intros; lia|].
  destruct (IH ltac:(lia)) as (IHle & IHn & IHok).
  pose proof (length_color_upto m n p req k) as Hlen.
  cbn [color_upto]. set (cs := color_upto m n p req k) in *.
  assert (IHle' : forall i, i < length cs -> req i = true -> nth i cs 0 <= i)
    by (rewrite Hlen; exact IHle).
  destruct (color_step_new m n p req cs ltac:(lia) IHle') as [Hfalse Htrue].
  rewrite Hlen in Hfalse, Htrue.
  assert (Hold : forall i, i < k -> nth i (color_step m n p req cs) 0 = nth i cs 0).
  { intros i Hi. unfold color_step. cbv zeta. destruct (req (length cs)); apply app_nth1; lia. }
  split_and!.
  - intros i Hi Hr. destruct (decide (i = k)) as [->|]; [by apply Htrue|].
    rewrite Hold by lia. apply IHle; [lia|done].
  - intros i Hi Hr. destruct (decide (i = k)) as [->|]; [by apply Hfalse|].
    rewrite Hold by lia. apply IHn; [lia|done].
  - intros i j Hij Hj Hri Hrj Hc. rewrite (Hold i) by lia.
    destruct (decide (j = k)) as [->|].
    + apply Htrue; [done|lia|done|done].
    + rewrite Hold by lia. apply IHok; [lia|lia|done|done|done].
Qed.

Theorem color_general_valid (m n : nat) (p : list bool) (req : nat -> bool) :
  colouring_valid m n p req (color_general m n p req).
Proof.
  unfold color_general. pose proof (length_color_upto m n p req n) as Hlen.
  destruct (color_upto_inv m n p req n (le_n n)) as (Hle & Hn & Hok).
  split_and!; [exact Hlen| | |].
  - intros j Hj Hr. rewrite (lookup_nth_lt _ _ 0) by lia. f_equal. by apply Hn.
  - intros j Hj Hr. rewrite (lookup_nth_lt _ _ 0) by lia.
    eexists; split; [done|]. specialize (Hle j Hj Hr). lia.
  - intros i j Hi Hj Hij Hri Hrj Hc. rewrite !(lookup_nth_lt _ _ 0) by lia. intros [= Heq].
    destruct (decide (i < j)); [by apply (Hok i j)|].
    apply (Hok j i); try done; try lia. by rewrite conflict_sym.
Qed.

(** ** Sufficient conditions for exactness *)

(** Under a valid colouring, a requested column [c] and another column [i]
    have different colours as soon as they conflict whenever [i] is a
    requested column too. *)
Lemma valid_distinct (m n : nat) (p : list bool) (req : nat -> bool) (color : list nat) (i c : nat) :
  colouring_valid m n p req color -> c < n -> req c = true -> i <> c ->
  (i < n -> req i = true -> conflict m n p i c = true) -> color !! i <> color !! c.
Proof.
  intros (Hlen & Hn & Hreq & Hok) Hc Hrc Hic Hconf.
  destruct (decide (i < n)) as [Hi|Hi].
  - destruct (req i) eqn:Hri; [by apply Hok; auto|].
    destruct (Hreq c Hc Hrc) as (g & Hg & Hgn). rewrite (Hn i Hi Hri), Hg. intros [= ->]. lia.
  - rewrite (proj2 (lookup_ge_None color i)) by lia.
    destruct (Hreq c Hc Hrc) as (g & -> & _). done.
Qed.

(** The pattern covers output [r]: it flags every input [e] depends on and
    the requested column [c]. *)
Lemma separates_of_cover (m n : nat) (p : list bool) (req : nat -> bool) (color : list nat)
    (r c : nat) (e : expr) :
  colouring_valid m n p req color -> r < m -> c < n -> req c = true ->
  (forall j, j < n -> occurs j e = true -> flag n p r j = true) -> flag n p r c = true ->
  separates color e c.
Proof.
  intros Hv Hr Hc Hrc Hcov Hflag j Hj Hjc. apply (valid_distinct m n p req); auto.
  intros Hjn _. unfold conflict. apply existsb_exists. exists r. split; [apply in_seq; lia|].
  by rewrite Hcov, Hflag.
Qed.

(** ** The coloured evaluation refines the per-column contract *)

(** Where the colouring in use has one colour per input and, when the
    assertions hold, separates every requested column in its output, the
    coloured [SparseJacobianForward] returns what the per-column contract
    returns, and caches the colouring. *)
Lemma sparse_jacobian_refines (F : ADFun) (x : list R) (p : list bool)
    (row col : list nat) (K : nat) (w : sparse_jacobian_work) :
  length (used_color F p col w) = Domain F ->
  (sjf_pre F x p row col K -> forall k r c e, row !! k = Some r -> col !! k = Some c ->
     Range F !! r = Some e -> separates (used_color F p col w) e c) ->
  SparseJacobianForwardW F x p row col K w =
    (fun jac => (jac, mk_work (used_color F p col w))) <$> SparseJacobianForward F x p row col K.
Proof.
  intros Hlen Hsep. unfold SparseJacobianForwardW, SparseJacobianForward.
  case_decide as Hpre; [|done]. cbn. do 2 f_equal.
  specialize (Hsep Hpre). destruct Hpre as (_ & _ & _ & _ & _ & Hcols & _).
  apply list_eq. intros k. rewrite !lookup_zip_with.
  destruct (row !! k) as [r|] eqn:Hr, (col !! k) as [c|] eqn:Hc; cbn; try done.
  f_equal. destruct (Range F !! r) as [e|] eqn:He.
  - apply (jac_entry_col_exact F _ _ r c e He); [|exact (Hsep k r c e Hr Hc He)].
    apply lookup_lt_is_Some_2. rewrite Hlen. exact (Forall_lookup_1 _ _ _ _ Hcols Hc).
  - unfold jac_entry_col, jac_entry. by rewrite He.
Qed.

(** ** The work object *)

(** A consistent work object colours as a first call does. *)
Lemma used_color_cached (F : ADFun) (p : list bool) (col : list nat) (w : sparse_jacobian_work) :
  cache_ok F p col w -> used_color F p col w = used_color F p col work_empty.
Proof. unfold used_color. intros [-> | ->]; cbn; [done|]. by destruct (color_general _ _ _ _). Qed.

(** Hence a call with a consistent work object returns what a first call
    returns, the work object included. *)
Lemma sjfw_cached (F : ADFun) (x : list R) (p : list bool) (row col : list nat) (K : nat)
    (w : sparse_jacobian_work) :
  cache_ok F p col w ->
  SparseJacobianForwardW F x p row col K w = SparseJacobianForwardW F x p row col K work_empty.
Proof. intros Hw. unfold SparseJacobianForwardW. by rewrite (used_color_cached F p col w Hw). Qed.

(** After a call the work object is consistent. *)
Lemma cache_ok_used (F : ADFun) (p : list bool) (col : list nat) (w : sparse_jacobian_work) :
  cache_ok F p col w -> cache_ok F p col (mk_work (used_color F p col w)).
Proof.
  intros Hw. rewrite (used_color_cached F p col w Hw). right. unfold used_color. reflexivity.
Qed.

Lemma sjfw_some (F : ADFun) (x : list R) (p : list bool) (row col : list nat) (K : nat)
    (w : sparse_jacobian_work) res :
  SparseJacobianForwardW F x p row col K w = Some res ->
  sjf_pre F x p row col K /\ snd res = mk_work (used_color F p col w).
Proof. unfold SparseJacobianForwardW. case_decide; [|done]. intros [= <-]. done. Qed.

Lemma sjfw_is_Some (F : ADFun) (x : list R) (p : list bool) (row col : list nat) (K : nat)
    (w : sparse_jacobian_work) :
  is_Some (SparseJacobianForwardW F x p row col K w) <-> sjf_pre F x p row col K.
Proof. unfold SparseJacobianForwardW. case_decide; split; (done || by eexists || by intros []). Qed.

Lemma pattern_covers_flag (n : nat) (p : list bool) (row col : list nat) (k r c : nat) :
  pattern_covers n p row col = true -> row !! k = Some r -> col !! k = Some c ->
  flag n p r c = true.
Proof.
  unfold pattern_covers, flag. intros Hcov Hr Hc.
  apply (proj1 (forallb_forall _ _) Hcov (r, c)), list_elem_of_In, (list_elem_of_lookup_2 _ k).
  by rewrite lookup_zip_with, Hr, Hc.
Qed.

Lemma pattern_sound_flag (F : ADFun) (p : list bool) (r j : nat) (e : expr) :
  pattern_sound F p = true -> Range F !! r = Some e -> j < Domain F -> occurs j e = true ->
  flag (Domain F) p r j = true.
Proof.
  unfold pattern_sound. intros Hs He Hj Ho.
  pose proof (lookup_lt_Some _ _ _ He) as Hlt.
  assert (Hr := proj1 (forallb_forall _ _) Hs r ltac:(apply in_seq; lia)). cbv beta in Hr. rewrite He in Hr.
  assert (Hf := proj1 (forallb_forall _ _) Hr j ltac:(apply in_seq; lia)). cbv beta in Hf. by rewrite Ho in Hf.
Qed.

(** Refinement of the documented contract by the coloured
    evaluation: when the pattern given to [SparseJacobianForward] is a
    sparsity pattern of the function and the work object is empty or holds
    the colouring of a first call, the coloured evaluation fails exactly
    when the per-column contract does, and otherwise returns the same
    coefficients and caches the greedy colouring. *)
Theorem sparse_jacobian_sound_refines (F : ADFun) (x : list R) (p : list bool)
    (row col : list nat) (K : nat) (w : sparse_jacobian_work) :
  pattern_sound F p = true -> cache_ok F p col w ->
  SparseJacobianForwardW F x p row col K w =
    (fun jac => (jac, mk_work (color_general (length (Range F)) (Domain F) p (requested col))))
      <$> SparseJacobianForward F x p row col K.
Proof.
  intros Hs Hw. rewrite (sjfw_cached F x p row col K w Hw).
  apply sparse_jacobian_refines; [apply length_color_general|].
  intros (_ & _ & _ & _ & Hrows & Hcols & Hcov) k r c e Hr Hc He.
  apply (separates_of_cover (length (Range F)) (Domain F) p (requested col) _ r);
    [apply color_general_valid
    |exact (Forall_lookup_1 _ _ _ _ Hrows Hr)
    |exact (Forall_lookup_1 _ _ _ _ Hcols Hc)
    |apply bool_decide_eq_true_2, (list_elem_of_lookup_2 _ k), Hc
    |intros j Hj Ho; exact (pattern_sound_flag F p r j e Hs He Hj Ho)
    |exact (pattern_covers_flag _ _ _ _ k r c Hcov Hr Hc)].
Qed.

