(* ===== verification/SystemModel.v ===== *)
(** * SystemModel: the generic linearization engine of systemModel.hpp

    [SystemModel<STATE_DIM, INPUT_DIM, K>] is generic in its dimensions and
    in the flow map, a pure virtual method that a subclass overrides.  The
    class [SystemFlowMap] is that interface: the flow map on tape scalars
    and its law (it produces [STATE_DIM] outputs).  The engine is a
    [Section] over the dimensions and an instance of the interface; its
    state is the record [SystemModel] of the private members (lines 55-62),
    and each method is a function of the state:
    - [initializeModel] (lines 70-126): resizes the two sparsity masks,
      runs the index loop (lines 80-96: [pattern_loop], the counter loop
      on fuel, whose body is [pattern_step]; each row index goes through
      [int(.)] and back to [size_t] as in the source), and records the
      tape ([record_tape], lines 98-125);
    - [computef] (lines 128-132): fills the output with ones;
    - [computeA], [computeB] (lines 134-160): call the coloured
      [SparseJacobianForwardW] of [Colouring] with their mask, index lists
      and work object ([workA_], [workB_]), write the work object back
      (it then caches the colouring), and view the buffer through
      [Eigen::Map]; a failed assertion of CppAD is [None].
    A client's calls are the inductive [call]; [call_step] runs one of
    them, [run] a sequence from the constructor (a failed assertion aborts
    the program), and [reach] is the same executions as a step relation.

    Theorems:
    - [initializeModel]: its closed form ([initializeModel_state]); the
      round trip between the stored index pairs and the flat indices
      ([index_pairs_roundtrip]);
    - the A buffer: the lists are row-major and [Eigen::Map] reads
      column-major, so the matrix built from a buffer that holds
      [J(row[k], col[k])] is [J] transposed ([computeA_layout_transposed]);
    - [computeA] on a once-initialized model passes CppAD's assertions
      exactly when the A mask flags the requested entries
      ([computeA_pre_iff]), i.e. when [INPUT_DIM = 0] or [STATE_DIM = 1]
      ([maskA_covers_iff]): the mask flags the first
      [STATE_DIM * STATE_DIM] entries of the row-major
      [STATE_DIM] x [(STATE_DIM + INPUT_DIM)] pattern, not the state
      block;
    - call sequences: the state invariant [engine_inv], established and
      preserved by rule induction over [reach] ([run_invariant]); in every
      reachable state [computeA] fails unless there was exactly one
      initialization and [STATE_DIM = 1] ([computeA_fails_iff]), and
      [computeB] always fails ([computeB_rejects]); every stored index
      pair is inside its matrix, the B rows past the flow map's outputs
      ([reach_wf]).
    The lemmas that read the stored row indices assume the Section
    hypothesis [Hwidth], [STATE_DIM + INPUT_DIM < 2^31]: every row index
    then fits the [int] it is narrowed to, so it is stored unchanged. *)

From stdpp Require Import base list.
From Stdlib Require Import Reals Lra.
From S2P Require Import Prelude Tape SparseJac Colouring.

(** The pure virtual [systemFlowMap(x, u, f)] and what the engine assumes of
    it: the output is a [STATE_DIM]-vector. *)
Class SystemFlowMap (STATE_DIM INPUT_DIM : nat) := {
  systemFlowMap : vec expr -> vec expr -> list expr;
  systemFlowMap_length : forall x u, length (systemFlowMap x u) = STATE_DIM
}.

Record SystemModel := mkSystemModel {
  f_ : ADFun;
  sparsityA_ : list bool;
  sparsityB_ : list bool;
  rowsA_ : list nat;
  rowsB_ : list nat;
  colsA_ : list nat;
  colsB_ : list nat;
  workA_ : sparse_jacobian_work;
  workB_ : sparse_jacobian_work
}.

(** The constructor [SystemModel() {}]: empty tape, empty vectors. *)
Definition SystemModel_new : SystemModel :=
  mkSystemModel ADFun_empty [] [] [] [] [] [] work_empty work_empty.

(** [std::vector<bool>::resize(n)]: keeps the first [n] elements, pads
    with [false]. *)
Definition resize (n : nat) (v : list bool) : list bool :=
  take n v ++ replicate (n - length v) false.

Section Engine.
Context (STATE_DIM INPUT_DIM : nat) `{!SystemFlowMap STATE_DIM INPUT_DIM}.

(** One iteration of the loop of lines 80-96 (its body, lines 82-95).  The row index goes through
    [int(i / STATE_DIM)] and back to [size_t] when it is stored (lines 86
    and 93); the column index is stored as computed. *)
Definition pattern_step (m : SystemModel) (i : nat) : SystemModel :=
  let '(mkSystemModel F sA sB rA rB cA cB wA wB) := m in
  if i <? STATE_DIM * STATE_DIM then
    mkSystemModel F (<[i := true]> sA) (<[i := false]> sB)
      (rA ++ [size_t_of_int (int_of_size_t (i / STATE_DIM))]) rB (cA ++ [i mod STATE_DIM]) cB wA wB
  else
    mkSystemModel F (<[i := false]> sA) (<[i := true]> sB)
      rA (rB ++ [size_t_of_int (int_of_size_t (i / STATE_DIM))]) cA (cB ++ [i mod STATE_DIM]) wA wB.

(** The loop [for (size_t i = 0; i < N; i++)] of lines 80-96 from
    counter [i]; [fuel] bounds the number of iterations, and
    [initializeModel] gives it [N], which is enough
    ([pattern_loop_fold]). *)
Fixpoint pattern_loop (fuel N i : nat) (m : SystemModel) : SystemModel :=
  match fuel with
  | 0 => m
  | S fuel => if i <? N then pattern_loop fuel N (S i) (pattern_step m i) else m
  end.

(** Lines 98-125: [x] holds the [STATE_DIM + INPUT_DIM] independent
    variables; the flow map is evaluated on its head and its tail. *)
Definition record_tape : ADFun :=
  mkADFun (STATE_DIM + INPUT_DIM)
    (systemFlowMap (fun k => EVar k) (fun k => EVar (STATE_DIM + k))).

Definition initializeModel (m : SystemModel) : SystemModel :=
  let N := (STATE_DIM + INPUT_DIM) * STATE_DIM in
  let '(mkSystemModel F sA sB rA rB cA cB wA wB) := m in
  let m := mkSystemModel F (resize N sA) (resize N sB) rA rB cA cB wA wB in
  let '(mkSystemModel _ sA sB rA rB cA cB wA wB) := pattern_loop N N 0 m in
  mkSystemModel record_tape sA sB rA rB cA cB wA wB.

(** [f.setOnes()]: the inputs are not read. *)
Definition computef (x u : vec R) : vec dbl := fun _ => Some 1%R.

(** [input << x, u]. *)
Definition input_of (x u : vec R) : list R :=
  map x (seq 0 STATE_DIM) ++ map u (seq 0 INPUT_DIM).

(** Lines 134-146: the Jacobian buffer of [STATE_DIM * STATE_DIM]
    coefficients, evaluated with [workA_], viewed as a [STATE_DIM] x
    [STATE_DIM] matrix; the work object is written back. *)
Definition computeA (m : SystemModel) (x u : vec R) : option (mat dbl * SystemModel) :=
  '(jac, w) ← SparseJacobianForwardW (f_ m) (input_of x u) (sparsityA_ m) (rowsA_ m) (colsA_ m)
                (STATE_DIM * STATE_DIM) (workA_ m);
  Some (map_colmajor STATE_DIM jac, {| m with workA_ := w |}).

(** Lines 148-160, with [workB_]. *)
Definition computeB (m : SystemModel) (x u : vec R) : option (mat dbl * SystemModel) :=
  '(jac, w) ← SparseJacobianForwardW (f_ m) (input_of x u) (sparsityB_ m) (rowsB_ m) (colsB_ m)
                (STATE_DIM * INPUT_DIM) (workB_ m);
  Some (map_colmajor STATE_DIM jac, {| m with workB_ := w |}).

End Engine.

(** ** Call sequences *)

(** The public methods a client calls on one instance, in order. *)
Inductive call : Type :=
  | CInitializeModel
  | CComputef (x u : vec R)
  | CComputeA (x u : vec R)
  | CComputeB (x u : vec R).

Section Calls.
Context (STATE_DIM INPUT_DIM : nat) `{!SystemFlowMap STATE_DIM INPUT_DIM}.

(** One call on the state.  [initializeModel] rebuilds the pattern and
    the tape, [computeA] and [computeB] fill their work object; a failed
    assertion of CppAD aborts the program ([None]). *)
Definition call_step (m : SystemModel) (c : call) : option SystemModel :=
  match c with
  | CInitializeModel => Some (initializeModel STATE_DIM INPUT_DIM m)
  | CComputef _ _ => Some m
  | CComputeA x u => snd <$> computeA STATE_DIM INPUT_DIM m x u
  | CComputeB x u => snd <$> computeB STATE_DIM INPUT_DIM m x u
  end.

Fixpoint run_from (m : SystemModel) (cs : list call) : option SystemModel :=
  match cs with
  | [] => Some m
  | c :: cs => m' ← call_step m c; run_from m' cs
  end.

(** A client's calls on a freshly constructed instance. *)
Definition run (cs : list call) : option SystemModel := run_from SystemModel_new cs.

(** The same executions as a step relation: [reach cs m] when the calls
    [cs], in order, lead from the constructor to [m] without abort. *)
Inductive reach : list call -> SystemModel -> Prop :=
  | reach_new : reach [] SystemModel_new
  | reach_step cs m c m' :
      reach cs m -> call_step m c = Some m' -> reach (cs ++ [c]) m'.

Definition is_init (c : call) : bool := if c is CInitializeModel then true else false.
Definition inits (cs : list call) : nat := length (List.filter is_init cs).

End Calls.

(** ** The index loop *)

(** What [initializeModel] builds from a fresh model: the masks flag the
    first [STATE_DIM * STATE_DIM] flat indices for A and the rest for B, and
    flat index [i] becomes the pair [(i / STATE_DIM, i mod STATE_DIM)]. *)
Definition maskA_spec (SD ID : nat) : list bool :=
  map (fun i => bool_decide (i < SD * SD)) (seq 0 ((SD + ID) * SD)).
Definition maskB_spec (SD ID : nat) : list bool :=
  map (fun i => bool_decide (~ i < SD * SD)) (seq 0 ((SD + ID) * SD)).
Definition rowsA_spec (SD : nat) : list nat :=
  map (fun i => size_t_of_int (int_of_size_t (i / SD))) (seq 0 (SD * SD)).
Definition colsA_spec (SD : nat) : list nat := map (fun i => i mod SD) (seq 0 (SD * SD)).
Definition rowsB_spec (SD ID : nat) : list nat :=
  map (fun i => size_t_of_int (int_of_size_t (i / SD))) (seq (SD * SD) (SD * ID)).
Definition colsB_spec (SD ID : nat) : list nat := map (fun i => i mod SD) (seq (SD * SD) (SD * ID)).

(** ** The invariant of the engine's state *)

Section Invariant.
Context (STATE_DIM INPUT_DIM : nat) `{!SystemFlowMap STATE_DIM INPUT_DIM}.

(** The state after [k] initializations: untouched when [k = 0];
    otherwise the tape and the A mask of one initialization, [k] copies of
    the A index pairs, the B rows of the pattern, a consistent A work
    object, and, when [k = 1], a once-initialized model up to that work
    object. *)
Definition engine_inv (k : nat) (m : SystemModel) : Prop :=
  (k = 0 /\ m = SystemModel_new) \/
  (0 < k /\ f_ m = record_tape STATE_DIM INPUT_DIM /\
   sparsityA_ m = maskA_spec STATE_DIM INPUT_DIM /\
   length (rowsA_ m) = k * (STATE_DIM * STATE_DIM) /\
   length (colsA_ m) = k * (STATE_DIM * STATE_DIM) /\
   STATE_DIM ∈ rowsB_ m /\
   cache_ok (record_tape STATE_DIM INPUT_DIM) (maskA_spec STATE_DIM INPUT_DIM)
     (colsA_spec STATE_DIM) (workA_ m) /\
   (k = 1 -> exists w, m = {| (initializeModel STATE_DIM INPUT_DIM SystemModel_new) with workA_ := w |})).

(** Well-formedness of the stored indices: the A pairs lie in the
    [STATE_DIM] x [STATE_DIM] block, the B columns are state columns, the B
    rows lie in [[STATE_DIM, STATE_DIM + INPUT_DIM)] (past the outputs of
    the flow map), and the row and column lists have equal lengths. *)
Definition wf_indices (m : SystemModel) : Prop :=
  Forall (fun r => r < STATE_DIM) (rowsA_ m) /\ Forall (fun c => c < STATE_DIM) (colsA_ m) /\
  Forall (fun r => STATE_DIM <= r < STATE_DIM + INPUT_DIM) (rowsB_ m) /\
  Forall (fun c => c < STATE_DIM) (colsB_ m) /\
  length (rowsA_ m) = length (colsA_ m) /\ length (rowsB_ m) = length (colsB_ m).

End Invariant.

Section EngineFacts.
Context (STATE_DIM INPUT_DIM : nat) `{!SystemFlowMap STATE_DIM INPUT_DIM}.

Local Abbreviation SD := STATE_DIM.
Local Abbreviation step := (pattern_step STATE_DIM).
Local Abbreviation lt_SS := (fun i => i < STATE_DIM * STATE_DIM).
Local Abbreviation ge_SS := (fun i => ~ i < STATE_DIM * STATE_DIM).

(** With enough fuel the loop runs to [i = N]: it is the fold of its body
    over the counters [i, ..., N - 1]. *)
Lemma pattern_loop_fold (fuel N i : nat) (m : SystemModel) :
  N - i <= fuel -> pattern_loop STATE_DIM fuel N i m = fold_left step (seq i (N - i)) m.
Proof.
  revert i m. induction fuel as [|fuel IH]; intros i m Hf; cbn [pattern_loop].
  - by replace (N - i) with 0 by lia.
  - destruct (Nat.ltb_spec i N).
    + replace (N - i) with (S (N - S i)) by lia. cbn [seq fold_left]. apply IH. lia.
    + by replace (N - i) with 0 by lia.
Qed.

(** The loop appends [(i / SD, i mod SD)] to the A lists for the flat
    indices below [SD * SD] and to the B lists for the others, and leaves
    the tape alone. *)
Lemma fold_pattern_lists (a n : nat) (m : SystemModel) :
  let m' := fold_left step (seq a n) m in
  f_ m' = f_ m /\ workA_ m' = workA_ m /\ workB_ m' = workB_ m /\
  rowsA_ m' = rowsA_ m ++ map (fun i => size_t_of_int (int_of_size_t (i / SD))) (filter lt_SS (seq a n)) /\
  colsA_ m' = colsA_ m ++ map (fun i => i mod SD) (filter lt_SS (seq a n)) /\
  rowsB_ m' = rowsB_ m ++ map (fun i => size_t_of_int (int_of_size_t (i / SD))) (filter ge_SS (seq a n)) /\
  colsB_ m' = colsB_ m ++ map (fun i => i mod SD) (filter ge_SS (seq a n)).
Proof.
  revert a m. induction n as [|n IH]; intros a m; cbn [seq fold_left].
  - by rewrite !app_nil_r.
  - rewrite !filter_cons.
    destruct (IH (S a) (step m a)) as (-> & -> & -> & -> & -> & -> & ->).
    destruct m as [F sA sB rA rB cA cB wA wB]; unfold pattern_step.
    destruct (Nat.ltb_spec a (SD * SD)); repeat case_decide; try lia;
      cbn; by rewrite <- ?app_assoc.
Qed.

(** The masks, filled left to right: whatever the resized masks held is
    overwritten. *)
Lemma fold_pattern_masks (N a n : nat) (m : SystemModel) (lA lB : list bool) :
  a + n = N -> length lA = n -> length lB = n ->
  sparsityA_ m = map (fun i => bool_decide (i < SD * SD)) (seq 0 a) ++ lA ->
  sparsityB_ m = map (fun i => bool_decide (~ i < SD * SD)) (seq 0 a) ++ lB ->
  sparsityA_ (fold_left step (seq a n) m) = map (fun i => bool_decide (i < SD * SD)) (seq 0 N) /\
  sparsityB_ (fold_left step (seq a n) m) = map (fun i => bool_decide (~ i < SD * SD)) (seq 0 N).
Proof.
  revert a m lA lB. induction n as [|n IH]; intros a m lA lB HN HlA HlB HA HB;
    cbn [seq fold_left].
  - destruct lA, lB; try discriminate. rewrite HA, HB, !app_nil_r. by replace a with N by lia.
  - destruct lA as [|yA lA], lB as [|yB lB]; try discriminate.
    apply (IH (S a) _ lA lB); [lia|cbn in *; lia|cbn in *; lia| |];
      destruct m as [F sA sB rA rB cA cB wA wB]; unfold pattern_step;
      cbn [sparsityA_ sparsityB_] in *; subst sA sB;
      rewrite seq_S, map_app, <- app_assoc; cbn [app map Nat.add];
      destruct (Nat.ltb_spec a (SD * SD)); cbn [sparsityA_ sparsityB_];
      (rewrite list_insert_middle by (by rewrite length_map, length_seq)); do 2 f_equal;
      symmetry; (apply bool_decide_eq_true_2 || apply bool_decide_eq_false_2); lia.
Qed.

Lemma seq_split_SS :
  seq 0 ((SD + INPUT_DIM) * SD) = seq 0 (SD * SD) ++ seq (SD * SD) (SD * INPUT_DIM).
Proof. replace ((SD + INPUT_DIM) * SD) with (SD * SD + SD * INPUT_DIM) by lia. by rewrite seq_app. Qed.

Lemma length_resize (n : nat) (v : list bool) : length (resize n v) = n.
Proof. unfold resize. rewrite length_app, length_take, length_replicate. lia. Qed.

(** [initializeModel] on any model: it records the tape, rewrites both
    masks completely, and appends the index pairs to the four lists
    (the vectors are never cleared). *)
Lemma initializeModel_eq (m : SystemModel) :
  initializeModel STATE_DIM INPUT_DIM m =
  mkSystemModel (record_tape STATE_DIM INPUT_DIM)
    (maskA_spec SD INPUT_DIM) (maskB_spec SD INPUT_DIM)
    (rowsA_ m ++ rowsA_spec SD) (rowsB_ m ++ rowsB_spec SD INPUT_DIM)
    (colsA_ m ++ colsA_spec SD) (colsB_ m ++ colsB_spec SD INPUT_DIM) (workA_ m) (workB_ m).
Proof.
  destruct m as [F sA sB rA rB cA cB wA wB]. unfold initializeModel.
  rewrite pattern_loop_fold, Nat.sub_0_r by lia.
  set (N := (SD + INPUT_DIM) * SD).
  set (m0 := mkSystemModel F (resize N sA) (resize N sB) rA rB cA cB wA wB).
  pose proof (fold_pattern_lists 0 N m0) as (_ & HwA & HwB & HrA & HcA & HrB & HcB).
  pose proof (fold_pattern_masks N 0 N m0 (resize N sA) (resize N sB)
                eq_refl (length_resize N sA) (length_resize N sB) eq_refl eq_refl) as [HA HB].
  destruct (fold_left _ _ m0) as [F' sA' sB' rA' rB' cA' cB' wA' wB']; cbn in *. subst.
  unfold N. rewrite seq_split_SS, !filter_app, filter_seq_lt, filter_seq_ge, filter_seq_not_ge,
    filter_seq_not_lt by lia.
  unfold maskA_spec, maskB_spec, rowsA_spec, rowsB_spec, colsA_spec, colsB_spec.
  by rewrite seq_split_SS, !app_nil_r.
Qed.

Corollary initializeModel_new :
  initializeModel STATE_DIM INPUT_DIM SystemModel_new =
  mkSystemModel (record_tape STATE_DIM INPUT_DIM)
    (maskA_spec SD INPUT_DIM) (maskB_spec SD INPUT_DIM)
    (rowsA_spec SD) (rowsB_spec SD INPUT_DIM) (colsA_spec SD) (colsB_spec SD INPUT_DIM)
    work_empty work_empty.
Proof. by rewrite initializeModel_eq. Qed.

(** C11: [initializeModel] on any model records the tape, rewrites both masks
    completely (flat indices below [STATE_DIM * STATE_DIM] for A, the
    others for B) and appends the index pairs [(i / STATE_DIM,
    i mod STATE_DIM)] to the four lists, which are never cleared. *)
Theorem initializeModel_state (m : SystemModel) :
  initializeModel STATE_DIM INPUT_DIM m =
  mkSystemModel (record_tape STATE_DIM INPUT_DIM)
    (maskA_spec SD INPUT_DIM) (maskB_spec SD INPUT_DIM)
    (rowsA_ m ++ rowsA_spec SD) (rowsB_ m ++ rowsB_spec SD INPUT_DIM)
    (colsA_ m ++ colsA_spec SD) (colsB_ m ++ colsB_spec SD INPUT_DIM) (workA_ m) (workB_ m).
Proof. exact (initializeModel_eq m). Qed.

(** The dimensions fit an [int]: the row indices survive their cast. *)
Hypothesis Hwidth : (Z.of_nat (STATE_DIM + INPUT_DIM) < 2 ^ 31)%Z.

Lemma rowsA_spec_eq : rowsA_spec SD = map (fun i => i / SD) (seq 0 (SD * SD)).
Proof.
  unfold rowsA_spec. apply map_ext_in. intros i Hi%in_seq. apply size_t_int_small.
  assert (i / SD < SD) by (apply Nat.Div0.div_lt_upper_bound; lia). lia.
Qed.

Lemma rowsB_spec_eq : rowsB_spec SD INPUT_DIM = map (fun i => i / SD) (seq (SD * SD) (SD * INPUT_DIM)).
Proof.
  unfold rowsB_spec. apply map_ext_in. intros i Hi%in_seq. apply size_t_int_small.
  assert (i / SD < SD + INPUT_DIM) by (apply Nat.Div0.div_lt_upper_bound; lia). lia.
Qed.

(** C21: Round trip of the index encoding: the [k]-th pair [(row, col)] that
    [initializeModel] stores for A encodes back to the flat index [k], and
    every pair [(r, c)] of the A block is stored at [k = r * SD + c]. *)
Theorem index_pairs_roundtrip :
  0 < SD ->
  (forall k, k < SD * SD ->
     nth k (rowsA_ (initializeModel STATE_DIM INPUT_DIM SystemModel_new)) 0 * SD
     + nth k (colsA_ (initializeModel STATE_DIM INPUT_DIM SystemModel_new)) 0 = k) /\
  (forall r c, r < SD -> c < SD ->
     nth (r * SD + c) (rowsA_ (initializeModel STATE_DIM INPUT_DIM SystemModel_new)) 0 = r /\
     nth (r * SD + c) (colsA_ (initializeModel STATE_DIM INPUT_DIM SystemModel_new)) 0 = c).
Proof.
  intros HS. rewrite initializeModel_new. cbn [rowsA_ colsA_]. rewrite rowsA_spec_eq. unfold colsA_spec.
  split.
  - intros k Hk. rewrite !nth_map_seq by done. cbn [Nat.add].
    pose proof (Nat.div_mod_eq k SD). lia.
  - intros r c Hr Hc. rewrite !nth_map_seq by nia. cbn [Nat.add].
    rewrite <- (Nat.add_comm c), (Nat.mul_comm r). split; [by apply flat_div|by apply flat_mod].
Qed.

(** C19: Layout of the A buffer: the index lists enumerate the pairs
    [(row, col)] of the state block in row-major order (lines 86-87), while
    [Eigen::Map] reads the buffer [jac] column-major (line 144).  Whatever
    [jac] holds per requested pair, [jac[k] = J(row[k], col[k])] as CppAD
    documents, the matrix [computeA] builds from it has [J(j, i)] at
    [(i, j)]: it is [J] transposed. *)
Theorem computeA_layout_transposed (jac : list dbl) (J : nat -> nat -> dbl) :
  (forall k, k < SD * SD ->
     nth k jac None = J (nth k (rowsA_ (initializeModel STATE_DIM INPUT_DIM SystemModel_new)) 0)
                        (nth k (colsA_ (initializeModel STATE_DIM INPUT_DIM SystemModel_new)) 0)) ->
  forall i j, i < SD -> j < SD -> map_colmajor SD jac i j = J j i.
Proof.
  intros Hjac i j Hi Hj. unfold map_colmajor. rewrite Hjac by nia.
  rewrite initializeModel_new. cbn [rowsA_ colsA_]. rewrite rowsA_spec_eq. unfold colsA_spec.
  rewrite !nth_map_seq by nia. by rewrite Nat.add_0_l, flat_div, flat_mod.
Qed.

End EngineFacts.

(** ** Evaluation *)


Section ComputeFacts.
Context (STATE_DIM INPUT_DIM : nat) `{!SystemFlowMap STATE_DIM INPUT_DIM}.
Hypothesis Hwidth : (Z.of_nat (STATE_DIM + INPUT_DIM) < 2 ^ 31)%Z.

Local Abbreviation SD := STATE_DIM.
Local Abbreviation ID := INPUT_DIM.
Local Abbreviation once := (initializeModel STATE_DIM INPUT_DIM SystemModel_new).

Lemma length_input_of (x u : vec R) :
  length (input_of SD ID x u) = SD + ID.
Proof. unfold input_of. by rewrite length_app, !length_map, !length_seq. Qed.

Lemma length_Range_record :
  length (Range (record_tape SD ID)) = SD.
Proof. apply systemFlowMap_length. Qed.

(** Closes a size or range assertion of [SparseJacobianForward] for index
    lists built from flat indices below [SD * SD]. *)
Ltac solve_index_pre :=
  rewrite ?(rowsA_spec_eq STATE_DIM INPUT_DIM Hwidth);
  unfold maskA_spec, colsA_spec;
  rewrite ?length_input_of, ?length_map, ?length_seq; try lia;
  apply List.Forall_forall; intros ? (i & <- & Hi%in_seq)%in_map_iff;
  pose proof (Nat.mod_upper_bound i SD ltac:(lia));
  pose proof (Nat.Div0.div_lt_upper_bound i SD SD ltac:(lia)); lia.

(** On the A lists of a once-initialized model every assertion but the
    pattern check holds: [SparseJacobianForward] passes them exactly when
    the A mask flags every requested entry. *)
Lemma computeA_pre_iff (x u : vec R) :
  0 < SD ->
  sjf_pre (record_tape SD ID) (input_of SD ID x u)
    (maskA_spec SD ID) (rowsA_spec SD) (colsA_spec SD) (SD * SD) <->
  pattern_covers (SD + ID) (maskA_spec SD ID) (rowsA_spec SD) (colsA_spec SD) = true.
Proof.
  intros HS. split; [by intros (_ & _ & _ & _ & _ & _ & Hc)|intros Hc].
  unfold sjf_pre. change (Domain (record_tape SD ID)) with (SD + ID).
  rewrite length_Range_record. split_and!; [solve_index_pre..|exact Hc].
Qed.

(** No call passes the assertions on the constructed, uninitialized model:
    its tape has no independent variable. *)
Lemma sjfw_new_fails (x u : vec R) p row col K w :
  0 < SD -> SparseJacobianForwardW (f_ SystemModel_new) (input_of SD ID x u) p row col K w = None.
Proof.
  intros HS. destruct (SparseJacobianForwardW _ _ _ _ _ _ _) as [res|] eqn:Hj; [|done].
  apply sjfw_some in Hj as [(Hx & _) _]. rewrite length_input_of in Hx. cbn in Hx. lia.
Qed.

Lemma maskA_lookup (i : nat) :
  i < (SD + ID) * SD -> maskA_spec SD ID !! i = Some (bool_decide (i < SD * SD)).
Proof.
  intros Hi. unfold maskA_spec.
  rewrite (lookup_nth_lt _ _ false) by (rewrite length_map, length_seq; lia).
  by rewrite nth_map_seq.
Qed.

(** The A mask flags the entries the A lists request exactly when the
    pattern has no control column or the state a single component: entry
    [(SD - 1, SD - 1)] sits at the row-major index
    [(SD - 1) * (SD + ID) + SD - 1] of the [SD] x [(SD + ID)] pattern,
    past the first [SD * SD] flags, the only ones set, as soon as
    [SD >= 2] and [ID >= 1]. *)
Lemma maskA_covers_iff :
  0 < SD ->
  pattern_covers (SD + ID) (maskA_spec SD ID) (rowsA_spec SD) (colsA_spec SD) = true <->
  ID = 0 \/ SD = 1.
Proof.
  intros HS. rewrite (rowsA_spec_eq STATE_DIM INPUT_DIM Hwidth). unfold pattern_covers, colsA_spec.
  rewrite zip_map_seq, forallb_forall. split.
  - intros Hall. destruct (decide (ID = 0 \/ SD = 1)) as [|Hn]; [done|exfalso].
    assert (Hin : In (SD - 1, SD - 1) (map (fun i => (i / SD, i mod SD)) (seq 0 (SD * SD)))).
    { apply in_map_iff. exists (SD - 1 + SD * (SD - 1)). rewrite flat_div, flat_mod by lia.
      split; [done|]. apply in_seq. nia. }
    specialize (Hall _ Hin). cbn [fst snd] in Hall. rewrite maskA_lookup in Hall by nia.
    apply bool_decide_eq_true_1 in Hall. injection Hall as Hb.
    apply bool_decide_eq_true_1 in Hb. nia.
  - intros Hcase [r c] (i & [= <- <-] & Hi%in_seq)%in_map_iff. cbn [fst snd].
    pose proof (Nat.div_mod i SD ltac:(lia)). pose proof (Nat.mod_upper_bound i SD ltac:(lia)).
    pose proof (Nat.Div0.div_lt_upper_bound i SD SD ltac:(lia)).
    set (q := i / SD) in *. set (r := i mod SD) in *.
    rewrite maskA_lookup by nia. apply bool_decide_eq_true_2. f_equal.
    apply bool_decide_eq_true_2. destruct Hcase; nia.
Qed.

(** [computeA] on a once-initialized model, whatever its work object
    holds, fails exactly when the A mask misses a requested entry. *)
Lemma computeA_once_fails_iff (w : sparse_jacobian_work) (x u : vec R) :
  0 < SD ->
  computeA SD ID {| once with workA_ := w |} x u = None <-> ~ (ID = 0 \/ SD = 1).
Proof.
  intros HS. rewrite <- (maskA_covers_iff HS), <- (computeA_pre_iff x u HS).
  rewrite initializeModel_new. unfold computeA. cbn [f_ sparsityA_ rowsA_ colsA_ workA_].
  pose proof (sjfw_is_Some (record_tape SD ID) (input_of SD ID x u) (maskA_spec SD ID)
                (rowsA_spec SD) (colsA_spec SD) (SD * SD) w) as Hiff.
  destruct (SparseJacobianForwardW _ _ _ _ _ _ _) as [[jac w']|]; cbn.
  - split; [done|]. intros Hn. exfalso. apply Hn, Hiff. by eexists.
  - split; [|done]. intros _ Hpre. apply Hiff in Hpre. by destruct Hpre.
Qed.

Lemma computeA_new_fails_iff (x u : vec R) :
  0 < SD -> computeA SD ID once x u = None <-> ~ (ID = 0 \/ SD = 1).
Proof.
  intros HS. assert (Honce : once = {| once with workA_ := work_empty |}) by (by rewrite initializeModel_new).
  rewrite Honce. by apply computeA_once_fails_iff.
Qed.

(** [computeB] fails at every state whose B rows hold [SD]: CppAD's
    assertion [row[k] < m] does. *)
Lemma computeB_fails_rows (m : SystemModel) (x u : vec R) :
  f_ m = record_tape SD ID -> SD ∈ rowsB_ m -> computeB SD ID m x u = None.
Proof.
  intros Hf Hin. unfold computeB.
  destruct (SparseJacobianForwardW _ _ _ _ _ _ _) as [[jac w]|] eqn:Hj; [|done].
  apply sjfw_some in Hj as [(_ & _ & _ & _ & Hrows & _) _].
  rewrite Hf, length_Range_record, Forall_forall in Hrows. specialize (Hrows _ Hin). lia.
Qed.

Lemma rowsB_spec_SD : 0 < SD -> 0 < ID -> SD ∈ rowsB_spec SD ID.
Proof.
  intros HS HI. rewrite (rowsB_spec_eq STATE_DIM INPUT_DIM Hwidth). apply list_elem_of_In, in_map_iff. exists (SD * SD). split.
  - by apply Nat.div_mul; lia.
  - apply in_seq. nia.
Qed.

End ComputeFacts.

(** ** Call sequences *)

Section CallFacts.
Context (STATE_DIM INPUT_DIM : nat) `{!SystemFlowMap STATE_DIM INPUT_DIM}.
Hypothesis Hwidth : (Z.of_nat (STATE_DIM + INPUT_DIM) < 2 ^ 31)%Z.

Local Abbreviation SD := STATE_DIM.
Local Abbreviation ID := INPUT_DIM.
Local Abbreviation once := (initializeModel STATE_DIM INPUT_DIM SystemModel_new).

Lemma run_from_app_gen (m : SystemModel) (cs1 cs2 : list call) :
  run_from SD ID m (cs1 ++ cs2) = (m' ← run_from SD ID m cs1; run_from SD ID m' cs2).
Proof.
  revert m. induction cs1 as [|c cs IH]; intros m; cbn; [done|].
  destruct (call_step _ _ m c); cbn; [apply IH|done].
Qed.

Lemma run_from_app (m : SystemModel) (cs : list call) (c : call) :
  run_from SD ID m (cs ++ [c]) = (m' ← run_from SD ID m cs; call_step SD ID m' c).
Proof.
  revert m. induction cs as [|c' cs IH]; intros m; cbn.
  - by destruct (call_step _ _ m c).
  - destruct (call_step _ _ m c'); cbn; [apply IH|done].
Qed.

(** The calls [initializeModel(); computeA(x, u)] on a fresh instance. *)
Lemma run_init_computeA (x u : vec R) :
  run SD ID [CInitializeModel; CComputeA x u] = snd <$> computeA SD ID once x u.
Proof.
  unfold run. cbn [run_from call_step mbind option_bind].
  destruct (computeA SD ID once x u) as [[]|]; reflexivity.
Qed.

Lemma run_init : run SD ID [CInitializeModel] = Some once.
Proof. reflexivity. Qed.

(** The executable [run] and the step relation [reach] agree. *)
Lemma run_reach (cs : list call) (m : SystemModel) :
  run SD ID cs = Some m <-> reach SD ID cs m.
Proof.
  unfold run. split.
  - revert m. induction cs as [|c cs IH] using rev_ind; intros m.
    + intros [= <-]. constructor.
    + rewrite run_from_app. destruct (run_from _ _ _ cs) as [m0|] eqn:H0; cbn; [|done].
      intros Hc. econstructor; [by apply IH|exact Hc].
  - induction 1 as [|cs m c m' Hr IH Hc]; [done|]. by rewrite run_from_app, IH.
Qed.

Lemma inits_snoc (cs : list call) (c : call) :
  inits (cs ++ [c]) = inits cs + (if is_init c then 1 else 0).
Proof. unfold inits. rewrite List.filter_app, length_app. by destruct c. Qed.

(** Every reachable state satisfies [engine_inv] for the number of
    initializations so far. *)
Lemma reach_inv (cs : list call) (m : SystemModel) :
  0 < SD -> 0 < ID -> reach SD ID cs m -> engine_inv SD ID (inits cs) m.
Proof.
  intros HS HI. induction 1 as [|cs m c m' Hr IH Hc]; [by left|].
  rewrite inits_snoc.
  destruct c as [| x u | x u | x u]; cbn [call_step is_init] in Hc |- *.
  - injection Hc as <-. right.
    destruct IH as [(-> & ->) | (Hpos & _ & _ & HrA & HcA & HB & Hw & _)].
    + split_and!; [lia| | | | | | |intros _; exists work_empty; by rewrite initializeModel_new];
        rewrite initializeModel_new; cbn [f_ sparsityA_ rowsA_ colsA_ rowsB_ workA_].
      all: unfold rowsA_spec, colsA_spec; rewrite ?length_map, ?length_seq; try lia; try done.
      * apply rowsB_spec_SD; lia.
      * by left.
    + rewrite initializeModel_eq. cbn [f_ sparsityA_ rowsA_ colsA_ rowsB_ workA_].
      rewrite !length_app. unfold rowsA_spec, colsA_spec. rewrite !length_map, !length_seq.
      split_and!; try lia; try done.
      apply elem_of_app. by left.
  - injection Hc as <-. by rewrite Nat.add_0_r.
  - rewrite Nat.add_0_r.
    destruct (computeA SD ID m x u) as [[M m1]|] eqn:HA; cbn in Hc; [|done]. injection Hc as <-.
    unfold computeA in HA.
    destruct (SparseJacobianForwardW _ _ _ _ _ _ _) as [[jac w]|] eqn:Hj; cbn in HA; [|done].
    injection HA as <- <-. apply sjfw_some in Hj as [Hpre Hw']. cbn in Hw'. subst w.
    destruct IH as [(H0 & ->) | (Hpos & Hf & HmA & HrA & HcA & HB & Hw & H1)].
    + exfalso. destruct Hpre as (Hx & _). rewrite length_input_of in Hx. cbn in Hx. lia.
    + assert (Hk1 : inits cs = 1) by (destruct Hpre as (_ & _ & Hrl & _); rewrite HrA in Hrl; nia).
      destruct (H1 Hk1) as [w0 ->]. cbn [workA_] in Hw. right.
      rewrite initializeModel_new in *. cbn [f_ sparsityA_ rowsA_ colsA_ rowsB_ workA_] in *.
      split_and!; try done.
      * by apply cache_ok_used.
      * intros _. by eexists.
  - exfalso.
    destruct (computeB SD ID m x u) as [[M m1]|] eqn:HB; cbn in Hc; [|done].
    destruct IH as [(_ & ->) | (_ & Hf & _ & _ & _ & Hrows & _)].
    + unfold computeB in HB. by rewrite sjfw_new_fails in HB.
    + by rewrite (computeB_fails_rows SD ID Hwidth m x u Hf Hrows) in HB.
Qed.

(** C20: Invariant: every state a client's calls reach without abort satisfies
    [engine_inv] for the number of [initializeModel] calls made: the
    uninitialized model, or the tape and mask of one initialization with
    [k] copies of the A index pairs and a work object holding nothing or
    the colouring of the current mask. *)
Theorem run_invariant (cs : list call) (m : SystemModel) :
  0 < SD -> 0 < ID -> run SD ID cs = Some m -> engine_inv SD ID (inits cs) m.
Proof. intros HS HI Hrun. by apply reach_inv, run_reach. Qed.

(** C4: In every state a client's calls reach, [computeA] fails
    CppAD's assertions unless [initializeModel] was called exactly once and
    the state has a single component: before initialization the tape is
    empty; after a second one the index lists no longer match [jac]; after
    one, the A mask flags the first [STATE_DIM * STATE_DIM] entries of the
    row-major [STATE_DIM] x [(STATE_DIM + INPUT_DIM)] pattern, which miss
    the requested entry [(STATE_DIM - 1, STATE_DIM - 1)] as soon as
    [STATE_DIM >= 2]. *)
Theorem computeA_fails_iff (cs : list call) (m : SystemModel) (x u : vec R) :
  0 < SD -> 0 < ID -> run SD ID cs = Some m ->
  computeA SD ID m x u = None <-> inits cs <> 1 \/ 2 <= SD.
Proof.
  intros HS HI Hrun. apply run_reach, reach_inv in Hrun; [|done|done].
  destruct Hrun as [(-> & ->) | (Hpos & _ & _ & HrA & _ & _ & _ & H1)].
  - split; [cbn; lia|]. intros _. unfold computeA. by rewrite sjfw_new_fails.
  - destruct (decide (inits cs = 1)) as [Hk|Hk].
    + destruct (H1 Hk) as [w ->]. rewrite computeA_once_fails_iff by done. split; intros; lia.
    + split; [lia|intros _]. unfold computeA.
      destruct (SparseJacobianForwardW _ _ _ _ _ _ _) as [[jac w]|] eqn:Hj; [|done].
      apply sjfw_some in Hj as [(_ & _ & Hr & _) _]. rewrite HrA in Hr. nia.
Qed.

(** C6: In every state a client's calls reach, [computeB] fails CppAD's
    assertion [row[k] < m]: before initialization the tape is empty, after
    it the B row list holds [STATE_DIM], an output the flow map does not
    have. *)
Theorem computeB_rejects (cs : list call) (m : SystemModel) (x u : vec R) :
  0 < SD -> 0 < ID -> run SD ID cs = Some m -> computeB SD ID m x u = None.
Proof.
  intros HS HI Hrun. apply run_reach, reach_inv in Hrun; [|done|done].
  destruct Hrun as [(_ & ->) | (_ & Hf & _ & _ & _ & Hrows & _)].
  - unfold computeB. by rewrite sjfw_new_fails.
  - exact (computeB_fails_rows SD ID Hwidth m x u Hf Hrows).
Qed.

(** [computeA] and [computeB] change nothing but their work object. *)
Lemma computeA_only_work (m m' : SystemModel) (M : mat dbl) (x u : vec R) :
  computeA SD ID m x u = Some (M, m') -> exists w, m' = {| m with workA_ := w |}.
Proof.
  unfold computeA. destruct (SparseJacobianForwardW _ _ _ _ _ _ _) as [[jac w]|]; [|done].
  intros [= _ <-]. by eexists.
Qed.

Lemma computeB_only_work (m m' : SystemModel) (M : mat dbl) (x u : vec R) :
  computeB SD ID m x u = Some (M, m') -> exists w, m' = {| m with workB_ := w |}.
Proof.
  unfold computeB. destruct (SparseJacobianForwardW _ _ _ _ _ _ _) as [[jac w]|]; [|done].
  intros [= _ <-]. by eexists.
Qed.

Lemma rowsA_spec_bound : Forall (fun r => r < SD) (rowsA_spec SD).
Proof.
  rewrite (rowsA_spec_eq STATE_DIM INPUT_DIM Hwidth).
  apply List.Forall_forall. intros r (i & <- & Hi%in_seq)%in_map_iff.
  apply Nat.Div0.div_lt_upper_bound. lia.
Qed.

Lemma colsA_spec_bound : Forall (fun c => c < SD) (colsA_spec SD).
Proof.
  apply List.Forall_forall. intros c (i & <- & Hi%in_seq)%in_map_iff.
  apply Nat.mod_upper_bound. nia.
Qed.

Lemma rowsB_spec_bound : Forall (fun r => SD <= r < SD + ID) (rowsB_spec SD ID).
Proof.
  rewrite (rowsB_spec_eq STATE_DIM INPUT_DIM Hwidth).
  apply List.Forall_forall. intros r (i & <- & Hi%in_seq)%in_map_iff.
  assert (SD <> 0) by nia. split.
  - apply Nat.div_le_lower_bound; lia.
  - apply Nat.Div0.div_lt_upper_bound. nia.
Qed.

Lemma colsB_spec_bound : Forall (fun c => c < SD) (colsB_spec SD ID).
Proof.
  apply List.Forall_forall. intros c (i & <- & Hi%in_seq)%in_map_iff.
  apply Nat.mod_upper_bound. nia.
Qed.

(** C22: Type invariant: in every reachable state the stored indices are
    well-formed ([wf_indices]), by rule induction over [reach]; in
    particular every B row is [STATE_DIM] or above, out of the range of
    the flow map's outputs. *)
Theorem reach_wf (cs : list call) (m : SystemModel) :
  reach SD ID cs m -> wf_indices SD ID m.
Proof.
  induction 1 as [|cs m c m' Hr IH Hc]; [by split_and!; constructor|].
  destruct IH as (HrA & HcA & HrB & HcB & HlA & HlB).
  destruct c as [| x u | x u | x u]; cbn [call_step] in Hc.
  - injection Hc as <-. rewrite initializeModel_eq. unfold wf_indices.
    cbn [rowsA_ colsA_ rowsB_ colsB_]. rewrite !length_app.
    unfold rowsA_spec, colsA_spec, rowsB_spec, colsB_spec. rewrite !length_map.
    pose proof rowsA_spec_bound. pose proof colsA_spec_bound.
    pose proof rowsB_spec_bound. pose proof colsB_spec_bound.
    split_and!; try (apply Forall_app; split; assumption); lia.
  - by injection Hc as <-.
  - destruct (computeA SD ID m x u) as [[M m1]|] eqn:HA; cbn in Hc; [|done]. injection Hc as <-.
    destruct (computeA_only_work _ _ _ _ _ HA) as [w ->]. by split_and!.
  - destruct (computeB SD ID m x u) as [[M m1]|] eqn:HB; cbn in Hc; [|done]. injection Hc as <-.
    destruct (computeB_only_work _ _ _ _ _ HB) as [w ->]. by split_and!.
Qed.

End CallFacts.
