(* ===== verification/CrossCheck.v ===== *)
(** * CrossCheck: the closed-form Jacobians against the AD engine

    The repository's concrete model plugs the flow map of params.h into
    [SystemModel<14, 3, K>] as its [systemFlowMap] ([rocket_flow_map]; the
    subclass itself is not in the sources, its formula is [Dynamics.f]).
    This file compares the two linearization paths:
    - every coefficient the engine's forward sweep returns is the exact
      derivative of the corresponding output of the real flow map along the
      seeded input direction ([engine_derivative]);
    - the closed-form [A] (with zeroed storage) is [sigma] times the
      forward-mode derivative of the tape, coefficient by coefficient, at
      every state of nonzero mass and nonzero thrust ([A_matches_tape]);
      likewise [B] when no thrust component is zero ([B_matches_tape]);
    - at [u = (1, 0, 0)] the closed-form [B] is non-finite where the tape's
      derivative is [0] ([closed_B_nan_tape_finite]);
    - at zero thrust the tape's derivative of the mass row is non-finite for
      every column, the state columns included ([tape_mass_row_zero_thrust]);
    - the engine's A mask does not flag the entries [computeA] requests
      ([sparsityA_does_not_cover]), so the engine path does not complete:
      initializing the rocket model and calling [computeA] fails CppAD's
      pattern assertion at every state ([rocket_first_computeA_aborts]). *)

From stdpp Require Import base list.
From Stdlib Require Import Reals Lra.
From S2P Require Import Prelude Params Dynamics Tape Jacobians SparseJac SystemModel.

Definition rocket_flow_map (P : consts) : SystemFlowMap 14 3 := {|
  systemFlowMap := f P;
  systemFlowMap_length := fun _ _ => eq_refl : length (f P _ _) = 14 |}.

Definition rocket_tape (P : consts) : ADFun := @record_tape 14 3 (rocket_flow_map P).

Definition rocket_model (P : consts) : SystemModel :=
  @initializeModel 14 3 (rocket_flow_map P) SystemModel_new.

(** The evaluation point [input << x, u] of the engine. *)
Definition pt (x u : vec R) : vec R := vec_of_list 0%R (input_of 14 3 x u).

(** Storage holding zeros. *)
Definition zeros : mat dbl := fun _ _ => Some 0%R.

(** The thrust [(1, 0, 0)] along the first body axis, and [(1, 1, 1)]. *)
Definition e1 : vec R := v3 1 0 0.
Definition ones3 : vec R := v3 1 1 1.

(** ** The recorded tape *)

(** Where the mass, the inertia and the thrust are nonzero, every forward
    sweep of the tape is finite. *)
Lemma rocket_tape_ok (P : consts) (x u : vec R) (r : nat) :
  consts_ok P -> x.[0] <> 0%R -> (0 < norm2_3 u)%R -> r < 14 ->
  exists e, Range (rocket_tape P) !! r = Some e /\ fwd_ok (pt x u) e.
Proof.
  intros (H0 & H1 & H2) Hm Hu Hr. unfold norm2_3 in Hu.
  do 14 (destruct r as [|r]; [eexists; split; [reflexivity|]; cbn; repeat split; auto; try lra|]).
  lia.
Qed.

Lemma rocket_jac_entry (P : consts) (x u : vec R) (r c : nat) :
  consts_ok P -> x.[0] <> 0%R -> (0 < norm2_3 u)%R -> r < 14 ->
  jac_entry (rocket_tape P) (pt x u) r c =
    Some (dR (pt x u) (unitv c) (nth r (Range (rocket_tape P)) (ECst 0))).
Proof.
  intros HP Hm Hu Hr. destruct (rocket_tape_ok P x u r HP Hm Hu Hr) as (e & He & Hok).
  unfold jac_entry. rewrite He, fwd_total by done.
  by rewrite (nth_lookup_Some _ _ _ _ He).
Qed.

Lemma e1_norm : (0 < norm2_3 e1)%R.
Proof. unfold norm2_3, e1; unfold_params; lra. Qed.

Lemma ones3_norm : (0 < norm2_3 ones3)%R.
Proof. unfold norm2_3, ones3; unfold_params; lra. Qed.

Lemma x_init_mass : x_init.[0] <> 0%R.
Proof. unfold_params; lra. Qed.

#[export] Hint Resolve e1_norm ones3_norm x_init_mass : scpp.

(** The exact-real sweep of the tape at [rho] is the real flow map at the
    head and the tail of [rho]. *)
Lemma rocket_tape_evalR (P : consts) (rho : vec R) :
  map (evalR rho) (Range (rocket_tape P)) = f P rho (fun k => rho (14 + k)).
Proof. reflexivity. Qed.

(** ** The engine differentiates the flow map *)

(** C3: Every Jacobian coefficient the engine obtains from the tape recorded
    from params.h's [f] is the true derivative: when the forward sweep
    seeded with input column [c] returns [t] for output [r], [t] is the
    derivative at [s = 0] of output [r] of the real flow map along the
    line [(x, u) + s e_c]. *)
Theorem engine_derivative (P : consts) (x u : vec R) (r c : nat) (t : R) :
  jac_entry (rocket_tape P) (pt x u) r c = Some t ->
  derivable_pt_lim
    (fun s => let p := shift (pt x u) (unitv c) s in fR P p (fun k => p (14 + k)) r) 0 t.
Proof.
  unfold jac_entry. destruct (Range (rocket_tape P) !! r) as [e|] eqn:He; [|done].
  destruct (fwd (pt x u) (unitv c) e) as [[v t']|] eqn:Hf; intros [= <-].
  destruct (fwd_correct _ _ _ _ _ Hf) as [_ Hd].
  eapply dlim_eq; [exact Hd|reflexivity|]. intros s. cbv zeta. unfold fR.
  rewrite <- rocket_tape_evalR. symmetry. by apply nth_map_lookup.
Qed.

(** ** Closed form against the tape *)

(** Case analysis over the coefficients [(i, j)] of a [rows] x [cols] block,
    closing each one with [tac]. *)
Ltac entrywise_cols j tac :=
  first [lia | destruct j as [|j]; [tac | entrywise_cols j tac]].
Ltac entrywise i j tac :=
  first [lia | destruct i as [|i]; [entrywise_cols j tac | entrywise i j tac]].

Ltac entry_field :=
  cbn -[ddiv dsqrt]; rewrite ?Rabs_mul_self; rewrite ?dsqrt_fin by nra; dbl_div; cbn;
  f_equal; field; auto with scpp.

(** One coefficient of the closed-form [A] against the tape. *)
Lemma A_tape_coeff (P : consts) (x u : vec R) (sigma : R) (i j : nat) :
  consts_ok P -> x.[0] <> 0%R -> (0 < norm2_3 u)%R -> i < 14 -> j < 14 ->
  A P zeros (fin x) (fin u) (Some sigma) i j =
    dmul (Some sigma) (jac_entry (rocket_tape P) (pt x u) i j).
Proof.
  intros HP Hm Hu Hi Hj. rewrite rocket_jac_entry by done.
  destruct HP as (H0 & H1 & H2).
  assert (Hs : sqrt (norm2_3 u) <> 0%R) by (apply sqrt_pos_ne; exact Hu).
  unfold norm2_3 in Hs; cbn in Hs.
  unfold A, mscale, fin, zeros. cbv beta zeta.
  entrywise i j entry_field.
Qed.

(** C1: The hand-derived [A] of params.h, with its storage zeroed, is [sigma]
    times the forward-mode derivative of the recorded flow map, on all 196
    coefficients, at every state of nonzero mass and nonzero thrust. *)
Theorem A_matches_tape (P : consts) (x u : vec R) (sigma : R) (i j : nat) :
  consts_ok P -> x.[0] <> 0%R -> (0 < norm2_3 u)%R -> i < 14 -> j < 14 ->
  A P zeros (fin x) (fin u) (Some sigma) i j =
    dmul (Some sigma) (jac_entry (rocket_tape P) (pt x u) i j).
Proof. exact (A_tape_coeff P x u sigma i j). Qed.

(** C2: The hand-derived [B], with its storage zeroed, is [sigma] times the
    forward-mode derivative of the tape with respect to the controls (input
    columns 14 to 16), on all 42 coefficients, when the mass and every
    thrust component are nonzero. *)
Theorem B_matches_tape (P : consts) (x u : vec R) (sigma : R) (i j : nat) :
  consts_ok P -> x.[0] <> 0%R -> u.[0] <> 0%R -> u.[1] <> 0%R -> u.[2] <> 0%R ->
  i < 14 -> j < 3 ->
  B P zeros (fin x) (fin u) (Some sigma) i j =
    dmul (Some sigma) (jac_entry (rocket_tape P) (pt x u) i (14 + j)).
Proof.
  intros HP Hm Hu0 Hu1 Hu2 Hi Hj.
  assert (Hu : (0 < norm2_3 u)%R) by (unfold norm2_3; cbn; nra).
  rewrite rocket_jac_entry by done.
  destruct HP as (H0 & H1 & H2).
  assert (Hs : sqrt (norm2_3 u) <> 0%R) by (apply sqrt_pos_ne; exact Hu).
  unfold norm2_3 in Hs; cbn in Hs.
  unfold B, mscale, fin, zeros. cbv beta zeta.
  entrywise i j entry_field.
Qed.

(** ** Zero thrust components *)

(** C7: At [u = (1, 0, 0)] the closed-form [B(0, 1)] is non-finite (NaN from
    [0 / |0|]) while the derivative of the tape, [-alpha_m u_1 / |u|], is
    the finite [0]: the two paths disagree on a nonzero thrust. *)
Theorem closed_B_nan_tape_finite (P : consts) (init : mat dbl) (x : vec R) (sigma : R) :
  consts_ok P -> x.[0] <> 0%R ->
  B P init (fin x) (fin e1) (Some sigma) 0 1 = None /\
  jac_entry (rocket_tape P) (pt x e1) 0 15 = Some 0%R.
Proof.
  intros HP Hm. split.
  - apply B_mass_coeff_none; [lia|]. unfold fin, e1. by unfold_params.
  - rewrite rocket_jac_entry by (auto with scpp; lia). cbn. f_equal.
    unfold e1; unfold_params. field. rewrite Rmult_1_l, !Rmult_0_l, !Rplus_0_r, sqrt_1. lra.
Qed.

(** C12: At zero thrust the forward sweep through [sqrt(|u|^2)] divides by
    [sqrt 0]: every derivative of the mass row computed by the engine is
    non-finite, including those with respect to the state, where the
    closed form assigns nothing. *)
Theorem tape_mass_row_zero_thrust (P : consts) (x : vec R) (c : nat) :
  jac_entry (rocket_tape P) (pt x zero3) 0 c = None.
Proof.
  unfold jac_entry, rocket_tape, record_tape. cbn [Range systemFlowMap rocket_flow_map].
  unfold f, norm3. simpl lookup. cbv iota.
  rewrite fwd_mul_none_r; [done|]. apply (fwd_sqrt_zero _ _ _ 0%R).
  cbn. unfold zero3. cbn. f_equal. f_equal; ring.
Qed.

(** ** The masks *)

(** C13: The A mask of the engine flags the first [14 * 14] flat indices of the
    row-major [14 x 17] pattern, i.e. rows 0 to 10 and part of row 11 in all
    17 columns, not the 14 state columns of every row: it does not flag all
    the entries [computeA] requests. *)
Example sparsityA_does_not_cover :
  let m := rocket_model params_h in
  pattern_covers 17 (sparsityA_ m) (rowsA_ m) (colsA_ m) = false /\
  sparsityA_ m !! (13 * 17 + 0) = Some false /\
  (13, 0) ∈ zip (rowsA_ m) (colsA_ m).
Proof.
  unfold rocket_model. rewrite (@initializeModel_new 14 3 (rocket_flow_map params_h)).
  cbn zeta. cbn [sparsityA_ rowsA_ colsA_].
  split_and!; [vm_compute; reflexivity|vm_compute; reflexivity|].
  apply list_elem_of_lookup. exists (13 * 14). vm_compute. reflexivity.
Qed.


(** ** Witnesses *)

Lemma A_matches_tape_witness :
  consts_ok params_h /\ x_init.[0] <> 0%R /\ (0 < norm2_3 e1)%R /\
  A params_h zeros (fin x_init) (fin e1) (Some 1%R) 4 9 =
    dmul (Some 1%R) (jac_entry (rocket_tape params_h) (pt x_init e1) 4 9).
Proof.
  split_and!; [exact params_h_ok|exact x_init_mass|exact e1_norm|].
  exact (A_matches_tape params_h x_init e1 1 4 9 params_h_ok x_init_mass e1_norm
           ltac:(lia) ltac:(lia)).
Defined.

Lemma B_matches_tape_witness :
  ones3.[0] <> 0%R /\ ones3.[1] <> 0%R /\ ones3.[2] <> 0%R /\
  B params_h zeros (fin x_init) (fin ones3) (Some 1%R) 5 2 =
    dmul (Some 1%R) (jac_entry (rocket_tape params_h) (pt x_init ones3) 5 (14 + 2)).
Proof.
  assert (H0 : ones3.[0] <> 0%R) by (unfold ones3; unfold_params; lra).
  assert (H1 : ones3.[1] <> 0%R) by (unfold ones3; unfold_params; lra).
  assert (H2 : ones3.[2] <> 0%R) by (unfold ones3; unfold_params; lra).
  split_and!; [exact H0|exact H1|exact H2|].
  exact (B_matches_tape params_h x_init ones3 1 5 2 params_h_ok x_init_mass H0 H1 H2
           ltac:(lia) ltac:(lia)).
Defined.

Lemma closed_B_nan_tape_finite_witness :
  B params_h zeros (fin x_init) (fin e1) (Some 1%R) 0 1 = None /\
  jac_entry (rocket_tape params_h) (pt x_init e1) 0 15 = Some 0%R.
Proof. exact (closed_B_nan_tape_finite params_h zeros x_init 1 params_h_ok x_init_mass). Defined.

(** A client that initializes the rocket model. *)
Lemma rocket_run_init :
  @run 14 3 (rocket_flow_map params_h) [CInitializeModel] = Some (rocket_model params_h).
Proof. exact (@run_init 14 3 (rocket_flow_map params_h)). Qed.

Lemma computeB_rejects_witness :
  @run 14 3 (rocket_flow_map params_h) [CInitializeModel] = Some (rocket_model params_h) /\
  computeB 14 3 (rocket_model params_h) x_init e1 = None.
Proof.
  split; [exact rocket_run_init|].
  exact (@computeB_rejects 14 3 (rocket_flow_map params_h) ltac:(lia) _ _ x_init e1 ltac:(lia) ltac:(lia)
           rocket_run_init).
Defined.

Lemma computeA_fails_iff_witness :
  @run 14 3 (rocket_flow_map params_h) [CInitializeModel] = Some (rocket_model params_h) /\
  (computeA 14 3 (rocket_model params_h) x_init e1 = None <-> inits [CInitializeModel] <> 1 \/ 2 <= 14).
Proof.
  split; [exact rocket_run_init|].
  exact (@computeA_fails_iff 14 3 (rocket_flow_map params_h) ltac:(lia) _ _ x_init e1 ltac:(lia) ltac:(lia)
           rocket_run_init).
Defined.

(** A buffer that holds [J(row[k], col[k])] at [k], for a [J] that tells
    its arguments apart. *)
Lemma computeA_layout_transposed_witness :
  let J := fun r c => Some (INR (100 * r + c)) in
  let jac := map (fun k => J (nth k (rowsA_ (rocket_model params_h)) 0)
                             (nth k (colsA_ (rocket_model params_h)) 0)) (seq 0 (14 * 14)) in
  (forall k, k < 14 * 14 ->
     nth k jac None = J (nth k (rowsA_ (rocket_model params_h)) 0) (nth k (colsA_ (rocket_model params_h)) 0)) /\
  map_colmajor 14 jac 1 4 = J 4 1.
Proof.
  intros J jac.
  assert (H : forall k, k < 14 * 14 ->
     nth k jac None = J (nth k (rowsA_ (rocket_model params_h)) 0) (nth k (colsA_ (rocket_model params_h)) 0)).
  { intros k Hk. unfold jac. rewrite nth_map_seq by exact Hk. reflexivity. }
  split; [exact H|].
  exact (@computeA_layout_transposed 14 3 (rocket_flow_map params_h) ltac:(lia) jac J H 1 4 ltac:(lia) ltac:(lia)).
Defined.

Lemma run_invariant_witness :
  @run 14 3 (rocket_flow_map params_h) [CInitializeModel] = Some (rocket_model params_h) /\
  @engine_inv 14 3 (rocket_flow_map params_h) 1 (rocket_model params_h).
Proof.
  split; [exact rocket_run_init|].
  exact (@run_invariant 14 3 (rocket_flow_map params_h) ltac:(lia) _ _ ltac:(lia) ltac:(lia) rocket_run_init).
Defined.

Lemma engine_derivative_witness :
  exists t, jac_entry (rocket_tape params_h) (pt x_init e1) 4 9 = Some t /\
    derivable_pt_lim
      (fun s => let p := shift (pt x_init e1) (unitv 9) s in
                fR params_h p (fun k => p (14 + k)) 4) 0 t.
Proof.
  eexists. split.
  - apply rocket_jac_entry; [exact params_h_ok|exact x_init_mass|exact e1_norm|lia].
  - apply (engine_derivative params_h x_init e1 4 9).
    apply rocket_jac_entry; [exact params_h_ok|exact x_init_mass|exact e1_norm|lia].
Defined.

Lemma index_pairs_roundtrip_witness :
  nth (1 * 14 + 4) (rowsA_ (rocket_model params_h)) 0 = 1 /\
  nth (1 * 14 + 4) (colsA_ (rocket_model params_h)) 0 = 4.
Proof.
  exact (proj2 (@index_pairs_roundtrip 14 3 (rocket_flow_map params_h) ltac:(lia) ltac:(lia)) 1 4
           ltac:(lia) ltac:(lia)).
Defined.

Lemma reach_wf_witness :
  @reach 14 3 (rocket_flow_map params_h) [CInitializeModel] (rocket_model params_h) /\
  @wf_indices 14 3 (rocket_model params_h).
Proof.
  assert (H : @reach 14 3 (rocket_flow_map params_h) [CInitializeModel] (rocket_model params_h)).
  { exact (@reach_step 14 3 (rocket_flow_map params_h) [] SystemModel_new CInitializeModel
             (rocket_model params_h) (reach_new 14 3) eq_refl). }
  split; [exact H|]. exact (@reach_wf 14 3 (rocket_flow_map params_h) ltac:(lia) _ _ H).
Defined.

